(** * vscode-todo-md: due dates, recurring-task reset and tree-view grouping

    A shallow embedding of [src/timeUtils.ts] (the due-date functions),
    of [resetAllRecurringTasks] (documentActions) and of
    [groupAndSortTreeItems] (treeViewProviders/treeViews.ts), with the
    properties the specification states about them; and of
    [getDateInISOFormat] and the edits of single lines in documentActions,
    with properties read off the code.

    Conventions of the embedding.
    - A JavaScript [Date] (or a numeric time value) is its time value, the
      milliseconds since 1970-01-01 0:00 UTC, an integer [Z].  The time zone
      of the host is a [JsDate.Zone], which every function that reads local
      fields takes as an implicit argument; its offset may change, as for
      daylight saving.  The rounding of floating point is outside the model:
      the quotients and remainders of the source are exact on the integers
      a [Date] can hold.
    - A JavaScript string is a [string]; its characters are code units
      below 256.
    - Every function that reads the clock ([new Date()], [dayjs()]) takes
      the reading as its argument [now].
    - A function that can [throw] returns a [Result]. *)

From Stdlib Require Import ZArith List String Ascii Bool Lia Permutation Sorted DecimalString.
Import ListNotations.

Open Scope string_scope.
Open Scope Z_scope.

(** ** Results of code that may throw *)

Inductive Result (A : Type) : Type :=
| Ok (value : A)
| Throw (message : string).

Arguments Ok {A} value.
Arguments Throw {A} message.

Definition bind {A B : Type} (r : Result A) (k : A -> Result B) : Result B :=
  match r with
  | Ok a => k a
  | Throw msg => Throw msg
  end.

Notation "x <- r ;; k" := (bind r (fun x => k))
  (at level 61, r at next level, right associativity).

Fixpoint mapM {A B : Type} (f : A -> Result B) (l : list A) : Result (list B) :=
  match l with
  | [] => Ok []
  | a :: l' => b <- f a ;; bs <- mapM f l' ;; Ok (b :: bs)
  end.

(** ** JavaScript strings and the regular expressions of the source *)

Module Js.

Definition code (c : ascii) : Z := Z.of_N (N_of_ascii c).

(** [\d] *)
Definition isDigit (c : ascii) : bool := (48 <=? code c) && (code c <=? 57).

(** [\w] *)
Definition isWord (c : ascii) : bool :=
  isDigit c
  || ((65 <=? code c) && (code c <=? 90))
  || ((97 <=? code c) && (code c <=? 122))
  || (code c =? 95).

(** [\s], for code units below 256: TAB, LF, VT, FF, CR, space, NBSP *)
Definition isSpace (c : ascii) : bool :=
  ((9 <=? code c) && (code c <=? 13)) || (code c =? 32) || (code c =? 160).

Definition digitValue (c : ascii) : Z := code c - 48.

(** [Number(s)] and unary [+s] for a string of decimal digits *)
Definition Number (s : string) : Z :=
  fold_left (fun acc c => 10 * acc + digitValue c) (list_ascii_of_string s) 0.

Fixpoint allDigits (s : string) : bool :=
  match s with
  | EmptyString => true
  | String c s' => isDigit c && allDigits s'
  end.

(** Every character of [s] satisfies [p]. *)
Fixpoint allChars (p : ascii -> bool) (s : string) : bool :=
  match s with
  | EmptyString => true
  | String c s' => p c && allChars p s'
  end.

Definition notDot (c : ascii) : bool := negb (Ascii.eqb c ".").

(** The longest prefix of characters satisfying [p], and the rest. *)
Fixpoint span (p : ascii -> bool) (s : string) : string * string :=
  match s with
  | EmptyString => (EmptyString, EmptyString)
  | String c s' =>
      if p c then let (run, rest) := span p s' in (String c run, rest)
      else (EmptyString, s)
  end.

Definition startsWithChar (c : ascii) (s : string) : bool :=
  match s with
  | String a _ => Ascii.eqb a c
  | EmptyString => false
  end.

Definition consHead (c : ascii) (parts : list string) : list string :=
  match parts with
  | p :: ps => String c p :: ps
  | [] => [String c EmptyString]
  end.

(** [s.split(',')]: never empty, [''.split(',')] is [['']]. *)
Fixpoint splitComma (s : string) : list string :=
  match s with
  | EmptyString => [EmptyString]
  | String c s' =>
      if Ascii.eqb c "," then EmptyString :: splitComma s'
      else consHead c (splitComma s')
  end.

(** [s.split('..')]: occurrences of the separator are taken left to right
    and do not overlap, so ["a...b"] gives [["a"; ".b"]]. *)
Fixpoint splitDotDot (s : string) : list string :=
  match s with
  | EmptyString => [EmptyString]
  | String c s' =>
      match s' with
      | String c' s'' =>
          if Ascii.eqb c "." && Ascii.eqb c' "." then EmptyString :: splitDotDot s''
          else consHead c (splitDotDot s')
      | EmptyString => [String c EmptyString]
      end
  end.

(** The first position of [s], scanning left to right, at which [matchAt]
    succeeds: [RegExp.prototype.exec] of a pattern without the sticky or
    global flag. *)
Fixpoint execFrom {A : Type} (matchAt : string -> option A) (s : string) : option A :=
  match matchAt s with
  | Some m => Some m
  | None =>
      match s with
      | EmptyString => None
      | String _ s' => execFrom matchAt s'
      end
  end.

End Js.

(** ** Dates *)

Module JsDate.

Definition msPerDay : Z := 86400000.

(** Day number of a civil date of the proleptic Gregorian calendar, day 0
    being 1970-01-01; [m] is 1..12. *)
Definition daysFromCivil (y m d : Z) : Z :=
  let y' := if m <=? 2 then y - 1 else y in
  let era := y' / 400 in
  let yoe := y' - era * 400 in
  let mp := if 2 <? m then m - 3 else m + 9 in
  let doy := (153 * mp + 2) / 5 + d - 1 in
  let doe := yoe * 365 + yoe / 4 - yoe / 100 + doy in
  era * 146097 + doe - 719468.

(** The time zone of the host, as ECMAScript describes it: [localTime t] is
    LocalTime(t), the reading of the local clock at the time value [t], and
    [utc l] is UTC(l), a time value at which the local clock reads [l] (for a
    reading that the clock skips or shows twice, the one the engine
    chooses). *)
Class Zone : Type := mkZone {
  localTime : Z -> Z;
  utc : Z -> Z
}.

Section Local.

Context {zone : Zone}.

(** The local day a time value falls on: Day(LocalTime(t)). *)
Definition dayNumber (t : Z) : Z := localTime t / msPerDay.

(** The time value of the local midnight that starts the local day [k]. *)
Definition midnight (k : Z) : Z := utc (k * msPerDay).

(** [new Date(year, monthIndex, date)]: a year from 0 to 99 means 1900 + year,
    a month index outside 0..11 carries into the year, and a day of the month
    outside the month carries into the neighbouring months (MakeDay); the
    result is the local midnight of that day. *)
Definition make (year monthIndex date : Z) : Z :=
  let yr := if (0 <=? year) && (year <=? 99) then 1900 + year else year in
  let ym := yr + monthIndex / 12 in
  let mn := monthIndex mod 12 in
  midnight (daysFromCivil ym (mn + 1) 1 + date - 1).

(** [date.getDay()]: 0 is Sunday; 1970-01-01 was a Thursday. *)
Definition getDay (t : Z) : Z := (dayNumber t + 4) mod 7.

(** [date.setHours(0, 0, 0, 0)] *)
Definition setHoursZero (t : Z) : Z := midnight (dayNumber t).

(** [date.setHours(23, 59, 59, 999)] *)
Definition setHoursLast (t : Z) : Z := utc (dayNumber t * msPerDay + msPerDay - 1).


End Local.

(** What the statements about whole days assume of a zone: the clock is not
    changed at midnight, so every local day starts when the clock reads
    0:00:00.000, one millisecond after it read 23:59:59.999; and a time
    value lies between the midnight of its day and the next midnight.
    Changes of the offset within the day, as for daylight saving at two
    o'clock, are allowed: days may last 23 or 25 hours. *)
Definition regular (zone : Zone) : Prop :=
  (forall k, localTime (midnight k) = k * msPerDay)
  /\ (forall k, utc (k * msPerDay - 1) = midnight k - 1)
  /\ (forall t, midnight (dayNumber t) <= t < midnight (dayNumber t + 1)).

End JsDate.

(** ** types.ts *)

Inductive DueState : Type := NotDue | Due | Overdue | Invalid.

Definition DueState_eqb (a b : DueState) : bool :=
  match a, b with
  | NotDue, NotDue | Due, Due | Overdue, Overdue | Invalid, Invalid => true
  | _, _ => false
  end.

Record DueReturn : Type := mkDueReturn {
  isRecurring : bool;
  isRange : bool;
  isDue : DueState
}.

(** ** dayjs, as far as the source uses it

    dayjs is an external library.  A Dayjs object is [Some t] for the time
    value [t] and [None] for an Invalid Date, whose comparisons are all
    false.  How [dayjs(string)] reads a string is left to the parameter
    [dayjsParse] of the functions that call it. *)

Module Dayjs.

Section Local.

Context {zone : JsDate.Zone}.

(** [d.startOf('day')] and [d.endOf('day')]: [setHours(0, 0, 0, 0)] and
    [setHours(23, 59, 59, 999)] on the date of [d]. *)
Definition startOfDay (t : Z) : Z := JsDate.setHoursZero t.
Definition endOfDay (t : Z) : Z := JsDate.setHoursLast t.

(** [this.isBefore(that, 'day')]: [this.endOf('day') < that] *)
Definition isBeforeDay (this that : option Z) : bool :=
  match this, that with
  | Some a, Some b => endOfDay a <? b
  | _, _ => false
  end.

(** [this.isAfter(that, 'day')]: [that < this.startOf('day')] *)
Definition isAfterDay (this that : option Z) : bool :=
  match this, that with
  | Some a, Some b => b <? startOfDay a
  | _, _ => false
  end.

(** [this.isSame(that, 'day')] *)
Definition isSameDay (this that : option Z) : bool :=
  match this, that with
  | Some a, Some b => (startOfDay a <=? b) && (b <=? endOfDay a)
  | _, _ => false
  end.

(** [this.isBetween(a, b, 'day', '[]')] of the isBetween plugin *)
Definition isBetweenDayInclusive (this a b : option Z) : bool :=
  (negb (isBeforeDay this a) && negb (isAfterDay this b))
  || (negb (isAfterDay this a) && negb (isBeforeDay this b)).

(** [dayjs(a).diff(b, 'day')]: dayjs takes the difference of the time
    values, corrects it by the difference of the two UTC offsets, which
    gives the difference of the two local readings, divides by the length of
    a day and cuts towards zero. *)
Definition diffDay (a b : Z) : Z :=
  Z.quot (JsDate.localTime a - JsDate.localTime b) JsDate.msPerDay.

(** [d.subtract(n, 'day')]: dayjs sets the day of the month back by [n]
    ([setDate]), which keeps the reading of the time of day. *)
Definition subtractDay (t n : Z) : Z :=
  JsDate.utc (JsDate.localTime t - n * JsDate.msPerDay).

End Local.

End Dayjs.

(** ** timeUtils.ts *)

Module TimeUtils.

Import Js.

Section Local.

(** The time zone of the host. *)
Context {zone : JsDate.Zone}.

Definition ONE_DAY_IN_MS : Z := 86400000.

Definition calcDiffInDays (d1 d2 : Z) : Z := Z.quot (d2 - d1) ONE_DAY_IN_MS.

Definition shiftDays (date numberOfDays : Z) : Z := date + ONE_DAY_IN_MS * numberOfDays.

(** [toDateString] prints the local year, month and day, so two dates print
    alike exactly when they fall on one local day. *)
Definition isTheSameDay (d1 d2 : Z) : bool :=
  JsDate.dayNumber d1 =? JsDate.dayNumber d2.

Definition shortenToDate (date : Z) : Z := JsDate.setHoursZero date.

(** Captures 1, 2, 3 and 5 of [dueWithDateRegexp]. *)
Record DateMatch : Type := mkDateMatch {
  yearText : string;
  monthText : string;
  dateText : string;
  algorithmText : option string
}.

(** The optional group [(-(\w+))?] at the end of [dueWithDateRegexp]. *)
Definition algorithmSuffix (rest : string) : option string :=
  match rest with
  | String c r =>
      if Ascii.eqb c "-" then
        let (word, _) := span isWord r in
        match word with
        | EmptyString => None
        | _ => Some word
        end
      else None
  | EmptyString => None
  end.

(** [/(\d\d\d\d)-(\d\d)-(\d\d)(-(\w+))?/] at the start of [s]. *)
Definition dueWithDateAt (s : string) : option DateMatch :=
  match s with
  | String y1 (String y2 (String y3 (String y4 (String h1 (String m1 (String m2
      (String h2 (String d1 (String d2 rest))))))))) =>
      if isDigit y1 && isDigit y2 && isDigit y3 && isDigit y4 && Ascii.eqb h1 "-"
         && isDigit m1 && isDigit m2 && Ascii.eqb h2 "-" && isDigit d1 && isDigit d2
      then Some (mkDateMatch
                   (String y1 (String y2 (String y3 (String y4 EmptyString))))
                   (String m1 (String m2 EmptyString))
                   (String d1 (String d2 EmptyString))
                   (algorithmSuffix rest))
      else None
  | _ => None
  end.

Definition dueWithDateRegexp_exec (s : string) : option DateMatch :=
  execFrom dueWithDateAt s.

(** [/e(\d+)d/] at the start of [s]: capture 1. *)
Definition everyNDayAt (s : string) : option string :=
  match s with
  | String c r =>
      if Ascii.eqb c "e" then
        let (digits, rest) := span isDigit r in
        match digits with
        | EmptyString => None
        | _ => if startsWithChar "d" rest then Some digits else None
        end
      else None
  | EmptyString => None
  end.

Definition everyNDayRegexp_exec (s : string) : option string :=
  execFrom everyNDayAt s.

(** The tail [\s?(d|days?)] of the pattern of [isDueWithDate]: capture 2.
    The alternative [d] is tried first and the pattern ends there, so the
    capture is always ["d"]. *)
Definition unitAt (s : string) : option string :=
  match s with
  | String c r =>
      if Ascii.eqb c "d" then Some "d"
      else if isSpace c && startsWithChar "d" r then Some "d"
      else None
  | EmptyString => None
  end.

(** [(\d+)?\s?(d|days?)] at the start of [s].  After the longest run of
    digits comes a character that is no digit; a shorter run would be followed
    by a digit, which neither [\s?] nor [d] accepts, so backtracking into the
    run never succeeds. *)
Definition intervalAndUnitAt (s : string) : option (option string * string) :=
  let (digits, rest) := span isDigit s in
  match unitAt rest with
  | Some unit =>
      Some (match digits with EmptyString => None | _ => Some digits end, unit)
  | None => None
  end.

(** [/(?!every|each|e)\s?(\d+)?\s?(d|days?)/] at the start of [s]: captures
    1 and 2.  The first [\s?] takes a white-space character when there is
    one and gives it back when the rest fails. *)
Definition intervalPatternAt (s : string) : option (option string * string) :=
  if prefix "every" s || prefix "each" s || prefix "e" s then None
  else
    match s with
    | String c r =>
        if isSpace c then
          match intervalAndUnitAt r with
          | Some m => Some m
          | None => intervalAndUnitAt s
          end
        else intervalAndUnitAt s
    | EmptyString => None
    end.

Definition intervalPattern_exec (s : string) : option (option string * string) :=
  execFrom intervalPatternAt s.

(** [/^(d|days?)$/.test(unit)] and [/^(m|months?)$/.test(unit)] *)
Definition isDayUnit (unit : string) : bool :=
  (unit =? "d")%string || (unit =? "day")%string || (unit =? "days")%string.
Definition isMonthUnit (unit : string) : bool :=
  (unit =? "m")%string || (unit =? "month")%string || (unit =? "months")%string.

(** [a % b === 0] on integers: [a % 0] is NaN, and a remainder of -0 equals 0. *)
Definition remIsZero (a b : Z) : bool :=
  if b =? 0 then false else Z.rem a b =? 0.

Definition isDueExactDate (now date : Z) : DueState :=
  if now <? date then NotDue
  else
    let diffInDays := calcDiffInDays (shortenToDate now) (shortenToDate date) in
    if diffInDays =? 0 then Due else Overdue.

Definition isDueToday (now : Z) (due : string) : DueState :=
  if (due =? "ed")%string then Due
  else
    let day := JsDate.getDay now in
    if (due =? "Sun")%string && (day =? 0) then Due
    else if (due =? "Mon")%string && (day =? 1) then Due
    else if (due =? "Tue")%string && (day =? 2) then Due
    else if (due =? "Wed")%string && (day =? 3) then Due
    else if (due =? "Thu")%string && (day =? 4) then Due
    else if (due =? "Fri")%string && (day =? 5) then Due
    else if (due =? "Sat")%string && (day =? 6) then Due
    else NotDue.

(** [dueDateStart] is [None] for [undefined]; [date] is the target, whose
    default in the source is [new Date()]. *)
Definition isDueWithDate (dueDate : string) (dueDateStart : option Z) (date : Z)
  : Result DueState :=
  let targetTimestamp := date in
  match dueDateStart with
  | None => Throw "dueDate was specified, but dueDateStart is missing"
  | Some start =>
      match intervalPattern_exec dueDate with
      | Some (capture1, unit) =>
          let interval := match capture1 with Some digits => Number digits | None => 1 end in
          if isDayUnit unit then
            let diffInDays :=
              calcDiffInDays (shortenToDate start) (shortenToDate targetTimestamp) in
            if remIsZero diffInDays interval then Ok Due else Ok NotDue
          else if isMonthUnit unit then Ok NotDue
          else Ok NotDue
      | None => Ok NotDue
      end
  end.

(** [const dueDates = due.split(',').filter(d => d.length)] *)
Definition dueDates (due : string) : list string :=
  filter (fun d => negb (String.length d =? 0)%nat) (splitComma due).

Section DueDates.

(** [dayjs(s)] for a string [s]: its time value, [None] for an Invalid Date. *)
Variable dayjsParse : string -> option Z.

Definition isDueBetween (now : Z) (d1 d2 : string) : DueReturn :=
  let now' := Some now in
  let date1 := dayjsParse d1 in
  let date2 := dayjsParse d2 in
  let isDue :=
    if Dayjs.isBeforeDay date1 now' && Dayjs.isBeforeDay date2 now' then Overdue
    else if Dayjs.isBetweenDayInclusive now' (dayjsParse d1) (dayjsParse d2) then Due
    else NotDue in
  mkDueReturn false true isDue.

Definition parseDueDate (now : Z) (due : string) : Result DueReturn :=
  if (due =? "today")%string then Ok (mkDueReturn false false Due)
  else
    let tryAsRange := splitDotDot due in
    if (1 <? List.length tryAsRange)%nat then
      Ok (isDueBetween now (nth 0 tryAsRange EmptyString) (nth 1 tryAsRange EmptyString))
    else
      match dueWithDateRegexp_exec due with
      | Some m =>
          let year := Number (yearText m) in
          let month := Number (monthText m) - 1 in
          let date := Number (dateText m) in
          let dateObject := JsDate.make year month date in
          match algorithmText m with
          | None => Ok (mkDueReturn false false (isDueExactDate now dateObject))
          | Some dueAlgorithm =>
              match everyNDayRegexp_exec dueAlgorithm with
              | Some _ =>
                  isDue <- isDueWithDate dueAlgorithm (Some (JsDate.make year month date)) now ;;
                  Ok (mkDueReturn true false isDue)
              | None => Ok (mkDueReturn true false NotDue)
              end
          end
      | None => Ok (mkDueReturn true false (isDueToday now due))
      end.

Definition parseDue (now : Z) (due : string) : Result (list DueReturn) :=
  mapM (parseDueDate now) (dueDates due).

End DueDates.

End Local.

End TimeUtils.

(** ** TheTask, as far as the two functions below read it *)

Record TaskDue : Type := mkTaskDue {
  raw : string;
  dueIsRecurring : bool
}.

Record Count : Type := mkCount {
  current : Z;
  needed : Z
}.

Record TheTask : Type := mkTheTask {
  lineNumber : Z;
  tags : list string;
  projects : list string;
  contexts : list string;
  done : bool;
  overdue : option string;
  due : option TaskDue;
  count : option Count
}.

(** ** documentActions: resetAllRecurringTasks *)

Module DocumentActions.

(** The civil date of a day number: year, month 1..12 and day of the
    month. *)
Definition civilFromDays (days : Z) : Z * Z * Z :=
  let z := days + 719468 in
  let era := z / 146097 in
  let doe := z - era * 146097 in
  let yoe := (doe - doe / 1460 + doe / 36524 - doe / 146096) / 365 in
  let doy := doe - (365 * yoe + yoe / 4 - yoe / 100) in
  let mp := (5 * doy + 2) / 153 in
  let d := doy - (153 * mp + 2) / 5 + 1 in
  let m := if mp <? 10 then mp + 3 else mp - 9 in
  let y := yoe + era * 400 + (if m <=? 2 then 1 else 0) in
  (y, m, d).

Definition digitChar (n : Z) : ascii := ascii_of_N (Z.to_N (48 + n mod 10)).

Definition pad2 (n : Z) : string :=
  String (digitChar (n / 10)) (String (digitChar n) EmptyString).

Definition pad4 (n : Z) : string :=
  String (digitChar (n / 1000)) (String (digitChar (n / 100)) (pad2 n)).

(** The date of a day number as YYYY-MM-DD, for years 0 to 9999. *)
Definition isoDate (days : Z) : string :=
  let '(y, m, d) := civilFromDays days in
  pad4 y ++ "-" ++ pad2 m ++ "-" ++ pad2 d.

Section Local.

(** The time zone of the host. *)
Context {zone : JsDate.Zone}.

(** [dayjs(t).format('YYYY-MM-DD')]: the local date. *)
Definition formatDate (t : Z) : string := isoDate (JsDate.dayNumber t).

(** The operations collected in the [WorkspaceEdit], in the order the source
    adds them. *)
Inductive Edit : Type :=
| RemoveDoneSymbol (line : Z)
| RemoveCompletionDate (line : Z)
| InsertOverdueTag (line : Z) (overdueDateString : string)
| SetCountCurrentValue (line : Z) (value : string).

(** [!task.overdue]: [undefined] and the empty string are falsy. *)
Definition notOverdue (t : TheTask) : bool :=
  match overdue t with
  | None => true
  | Some s => (s =? EmptyString)%string
  end.

Definition isDueOrOverdue (s : DueState) : bool :=
  match s with
  | Due | Overdue => true
  | _ => false
  end.

Section Reset.

(** [new DueDate(raw, { targetDate }).isDue]: the class [DueDate] is not part
    of the sources at hand, the function takes it as a parameter. *)
Variable dueDateIsDue : string -> Z -> DueState.

(** What [removeDoneSymbolEdit] and [removeCompletionDateWorkspaceEdit] add
    for a line: they look at the text of the line, which is the document's. *)
Variable removeDoneSymbolEdit : Z -> list Edit.
Variable removeCompletionDateWorkspaceEdit : Z -> list Edit.

(** The [for (let i = daysSinceLastVisit; i > 0; i--)] loop: the date of the
    first [i] whose day is due or overdue; after it the loop breaks. *)
Fixpoint scanFrom (now : Z) (dueRaw : string) (i : nat) : option Z :=
  match i with
  | O => None
  | S i' =>
      let date := Dayjs.subtractDay now (Z.of_nat i) in
      if isDueOrOverdue (dueDateIsDue dueRaw date) then Some date
      else scanFrom now dueRaw i'
  end.

(** [new Date(d.getFullYear(), d.getMonth(), d.getDate())], for years from
    100 on. *)
Definition withoutTime (t : Z) : Z := JsDate.setHoursZero t.

(** The body of the loop over the tasks. *)
Definition resetTask (now lastVisit : Z) (task : TheTask) : list Edit :=
  match due task with
  | Some d =>
      if dueIsRecurring d then
        ((if done task then
           removeDoneSymbolEdit (lineNumber task)
           ++ removeCompletionDateWorkspaceEdit (lineNumber task)
         else if notOverdue task && negb (Dayjs.isSameDay (Some now) (Some lastVisit)) then
           let lastVisitWithoutTime := withoutTime lastVisit in
           let nowWithoutTime := withoutTime now in
           let daysSinceLastVisit := Dayjs.diffDay nowWithoutTime lastVisitWithoutTime in
           match scanFrom now (raw d) (Z.to_nat daysSinceLastVisit) with
           | Some date => [InsertOverdueTag (lineNumber task) (formatDate date)]
           | None => []
           end
         else [])
        ++ match count task with
           | Some _ => [SetCountCurrentValue (lineNumber task) "0"]
           | None => []
           end)%list
      else []
  | None => []
  end.

Definition resetAllRecurringTasks (now lastVisit : Z) (tasks : list TheTask) : list Edit :=
  flat_map (resetTask now lastVisit) tasks.

End Reset.

End Local.

End DocumentActions.

(** ** treeViewProviders/treeViews.ts: groupAndSortTreeItems *)

Module TreeViews.

Record ItemForProvider : Type := mkItem {
  title : string;
  tasks : list TheTask
}.

(** [TreeItemSortType.Alphabetic] and [TreeItemSortType.Count] *)
Inductive TreeItemSortType : Type := Alphabetic | ByCount.

(** The fields [tags], [contexts] and [projects] of the source are
    [tagsList], [contextsList] and [projectsList] here. *)
Record ParsedItems : Type := mkParsedItems {
  tagsList : list string;
  contextsList : list string;
  projectsList : list string;
  tagsForProvider : list ItemForProvider;
  projectsForProvider : list ItemForProvider;
  contextsForProvider : list ItemForProvider
}.

(** The own properties of a [TempTitleLineNumberMap], in the order they were
    created. *)
Definition TempTitleLineNumberMap : Type := list (string * list TheTask).

(** The names of the own properties, in the order they were created. *)
Definition keysOf (m : TempTitleLineNumberMap) : list string := map fst m.

Fixpoint lookup (m : TempTitleLineNumberMap) (key : string) : option (list TheTask) :=
  match m with
  | [] => None
  | (k, v) :: m' => if (k =? key)%string then Some v else lookup m' key
  end.

Fixpoint pushAt (m : TempTitleLineNumberMap) (key : string) (task : TheTask)
  : TempTitleLineNumberMap :=
  match m with
  | [] => []
  | (k, v) :: m' =>
      if (k =? key)%string then (k, (v ++ [task])%list) :: m'
      else (k, v) :: pushAt m' key task
  end.

(** What an empty object literal inherits from [Object.prototype]: reading
    one of these keys gives a truthy value that is no array. *)
Definition inheritedKeys : list string :=
  [ "constructor"; "hasOwnProperty"; "isPrototypeOf"; "propertyIsEnumerable";
    "toLocaleString"; "toString"; "valueOf"; "__proto__";
    "__defineGetter__"; "__defineSetter__"; "__lookupGetter__"; "__lookupSetter__" ].

(** [if (!map[key]) { map[key] = []; } map[key].push(task);] *)
Definition addTo (m : TempTitleLineNumberMap) (key : string) (task : TheTask)
  : Result TempTitleLineNumberMap :=
  match lookup m key with
  | Some _ => Ok (pushAt m key task)
  | None =>
      if existsb (String.eqb key) inheritedKeys then
        Throw "TypeError: push is not a function"
      else Ok (m ++ [(key, [task])])%list
  end.

Fixpoint addAll (m : TempTitleLineNumberMap) (keys : list string) (task : TheTask)
  : Result TempTitleLineNumberMap :=
  match keys with
  | [] => Ok m
  | key :: keys' => m' <- addTo m key task ;; addAll m' keys' task
  end.

(** A property name that is an array index ("0", "17", ...; at most
    2^32 - 2) is listed before the other names, in ascending order. *)
Definition isArrayIndex (key : string) : bool :=
  match key with
  | EmptyString => false
  | String c rest =>
      Js.allDigits key
      && (negb (Ascii.eqb c "0") || (String.length rest =? 0)%nat)
      && (Js.Number key <=? 4294967294)
  end.

Fixpoint insertIndexKey (e : string * list TheTask) (l : TempTitleLineNumberMap)
  : TempTitleLineNumberMap :=
  match l with
  | [] => [e]
  | e' :: l' =>
      if Js.Number (fst e) <=? Js.Number (fst e') then e :: l
      else e' :: insertIndexKey e l'
  end.

(** The order of [for (const key in map)] and of [Object.keys(map)]. *)
Definition ownEntries (m : TempTitleLineNumberMap) : TempTitleLineNumberMap :=
  (fold_right insertIndexKey [] (filter (fun e => isArrayIndex (fst e)) m)
   ++ filter (fun e => negb (isArrayIndex (fst e))) m)%list.

Definition objectKeys (m : TempTitleLineNumberMap) : list string :=
  map fst (ownEntries m).

Definition itemsOf (m : TempTitleLineNumberMap) : list ItemForProvider :=
  map (fun e => mkItem (fst e) (snd e)) (ownEntries m).

(** [Array.prototype.sort] with a comparator: a stable sort; an element moves
    behind a later one only when the comparator puts it after that one. *)
Fixpoint insertSorted {A : Type} (cmp : A -> A -> Z) (x : A) (l : list A) : list A :=
  match l with
  | [] => [x]
  | y :: l' => if 0 <? cmp x y then y :: insertSorted cmp x l' else x :: l
  end.

Definition arraySort {A : Type} (cmp : A -> A -> Z) (l : list A) : list A :=
  fold_right (insertSorted cmp) [] l.

Section Grouping.

(** [title.localeCompare(other)]: the collation of the host. *)
Variable localeCompare : string -> string -> Z.

(** [$config.sortTagsView], [$config.sortProjectsView], [$config.sortContextsView] *)
Variable sortTagsView sortProjectsView sortContextsView : TreeItemSortType.

(** The tasks [forEachTask] hands to its callback, in order.  The helper is
    not part of the sources at hand; it is called with the callback alone, so
    what it walks comes from the extension state [$state]. *)
Variable stateTasks : list TheTask.

Definition sortItemsForProvider (items : list ItemForProvider) (sortType : TreeItemSortType)
  : list ItemForProvider :=
  match sortType with
  | Alphabetic => arraySort (fun a b => localeCompare (title a) (title b)) items
  | ByCount =>
      arraySort (fun a b => Z.of_nat (List.length (tasks b)) - Z.of_nat (List.length (tasks a))) items
  end.

(** The callback given to [forEachTask]. *)
Definition groupTask (maps : TempTitleLineNumberMap * TempTitleLineNumberMap * TempTitleLineNumberMap)
  (task : TheTask)
  : Result (TempTitleLineNumberMap * TempTitleLineNumberMap * TempTitleLineNumberMap) :=
  let '(tagMap, projectMap, contextMap) := maps in
  tagMap' <- addAll tagMap (tags task) task ;;
  projectMap' <- addAll projectMap (projects task) task ;;
  contextMap' <- addAll contextMap (contexts task) task ;;
  Ok (tagMap', projectMap', contextMap').

Fixpoint forEachTask {S : Type} (f : S -> TheTask -> Result S) (s : S) (visited : list TheTask)
  : Result S :=
  match visited with
  | [] => Ok s
  | task :: rest => s' <- f s task ;; forEachTask f s' rest
  end.

(** The parameter [tasks] is the one of the source. *)
Definition groupAndSortTreeItems (tasks : list TheTask) : Result ParsedItems :=
  maps <- forEachTask groupTask ([], [], []) stateTasks ;;
  let '(tagMap, projectMap, contextMap) := maps in
  let tagsForProvider := sortItemsForProvider (itemsOf tagMap) sortTagsView in
  let projectsForProvider := sortItemsForProvider (itemsOf projectMap) sortProjectsView in
  let contextsForProvider := sortItemsForProvider (itemsOf contextMap) sortContextsView in
  Ok (mkParsedItems (objectKeys tagMap) (objectKeys contextMap) (objectKeys projectMap)
        tagsForProvider projectsForProvider contextsForProvider).

End Grouping.

End TreeViews.

(** ** The combined state of a comma-delimited expression *)

(** Modelled from the spec: the code that folds the list [parseDue] returns
    into one state is not part of the sources at hand.  The specification
    gives the rule: due if any alternative is due; overdue if an alternative
    is overdue and none is due; invalid if all alternatives are invalid;
    invalid alternatives are ignored otherwise. *)
Definition dueStateOfAlternatives (states : list DueState) : DueState :=
  if existsb (DueState_eqb Due) states then Due
  else if existsb (DueState_eqb Overdue) states then Overdue
  else if forallb (DueState_eqb Invalid) states then Invalid
  else NotDue.

(** ** Instances of the parameters, for the examples *)

Module Fixtures.

(** A host whose clock is always [offset] milliseconds ahead of UTC. *)
Definition fixedOffset (offset : Z) : JsDate.Zone :=
  JsDate.mkZone (fun t => t + offset) (fun l => l - offset).

(** A host on UTC. *)
Definition utcZone : JsDate.Zone := fixedOffset 0.

(** America/New_York in the year 2018: five hours behind UTC until
    11 March, 7:00 UTC, when the clock goes from 2:00 to 3:00; four hours
    behind until 4 November, 6:00 UTC, when it goes from 2:00 back to 1:00;
    five hours behind from then on.  A reading that the clock skips is taken
    with the offset before the change, and of a reading that occurs twice
    the earlier one is meant, as ECMAScript says.  The examples use this zone
    for dates of 2018 only. *)
Definition newYork2018 : JsDate.Zone :=
  JsDate.mkZone
    (fun t =>
       if t <? 1520751600000 then t - 18000000
       else if t <? 1541311200000 then t - 14400000
       else t - 18000000)
    (fun l =>
       if l <? 1520737200000 then l + 18000000
       else if l <? 1541296800000 then l + 14400000
       else l + 18000000).

(** Up to [n] digits at the start of [s], and the rest of [s]. *)
Fixpoint takeDigits (n : nat) (s : string) : string * string :=
  match n, s with
  | S n', String c s' =>
      if Js.isDigit c then let (ds, r) := takeDigits n' s' in (String c ds, r)
      else (EmptyString, s)
  | _, _ => (EmptyString, s)
  end.

Definition skipHyphen (s : string) : string :=
  match s with
  | String c r => if Ascii.eqb c "-" then r else s
  | EmptyString => s
  end.

Section Local.

Context {zone : JsDate.Zone}.

(** An instance of [dayjsParse] for the examples.  dayjs reads a date
    without a time of day by its pattern [^(\d{4})-?(\d{1,2})-?(\d{0,2})$]
    (YYYY-MM-DD, YYYY-M-D, YYYYMMDD, YYYY-MM and the like) as
    [new Date(YYYY, MM - 1, DD || 1)], and the empty string as an Invalid
    Date.  Strings with a time of day, and strings that dayjs hands on to
    [new Date(string)], are not covered: the instance gives [None] for them,
    and no example uses one. *)
Definition dayjsDateOnly (s : string) : option Z :=
  let (yyyy, r1) := takeDigits 4 s in
  if (String.length yyyy =? 4)%nat then
    let (mm, r2) := takeDigits 2 (skipHyphen r1) in
    match mm with
    | EmptyString => None
    | _ =>
        let (dd, r3) := takeDigits 2 (skipHyphen r2) in
        match r3 with
        | EmptyString =>
            Some (JsDate.make (Js.Number yyyy) (Js.Number mm - 1)
                    (match dd with EmptyString => 1 | _ => Js.Number dd end))
        | _ => None
        end
    end
  else None.


Definition monday20180101 : Z := JsDate.make 2018 0 1.

End Local.

End Fixtures.

(** ** Measures for the statements about the grouping *)

Module Grouped.

Import TreeViews.

(** [item.tasks.length] *)
Definition itemSize (i : ItemForProvider) : Z := Z.of_nat (List.length (tasks i)).

(** [(a, b) => b.tasks.length - a.tasks.length], the comparison of
    [sortItemsForProvider] for [TreeItemSortType.Count]. *)
Definition byCount (a b : ItemForProvider) : Z := itemSize b - itemSize a.

(** [map[key]], with the empty array for a name the map does not own. *)
Definition bucket (m : TempTitleLineNumberMap) (key : string) : list TheTask :=
  match lookup m key with
  | Some v => v
  | None => []
  end.

(** The visited tasks that carry [key] in the list [field], in the order of
    the visit, each as often as it carries the name. *)
Definition carriers (field : TheTask -> list string) (key : string) (visited : list TheTask)
  : list TheTask :=
  flat_map (fun t => repeat t (count_occ string_dec (field t) key)) visited.

End Grouped.

(** ** More of timeUtils.ts: getDateInISOFormat *)

Module IsoFormat.

Import DocumentActions.

(** [s.slice(0, n)] *)
Fixpoint take (n : nat) (s : string) : string :=
  match n, s with
  | S n', String c s' => String c (take n' s')
  | _, _ => EmptyString
  end.

(** [s.slice(n)] *)
Fixpoint drop (n : nat) (s : string) : string :=
  match n, s with
  | S n', String _ s' => drop n' s'
  | _, _ => s
  end.

Definition pad3 (n : Z) : string := String (digitChar (n / 100)) (pad2 n).

(** [date.toISOString()]: the UTC fields of the time value [t] as
    ["YYYY-MM-DDTHH:mm:ss.sssZ"], for years 0 to 9999. *)
Definition toISOString (t : Z) : string :=
  let msOfDay := t mod JsDate.msPerDay in
  isoDate (t / JsDate.msPerDay) ++ "T" ++ pad2 (msOfDay / 3600000) ++ ":" ++ pad2 (msOfDay / 60000 mod 60)
  ++ ":" ++ pad2 (msOfDay / 1000 mod 60) ++ "." ++ pad3 (msOfDay mod 1000) ++ "Z".

(** [getDateInISOFormat(date, includeTime)].  [useLocalDateTime] is
    [config.useLocalDateTime].  [date.getTimezoneOffset()] is the minutes
    from LocalTime(date) to [date], so
    [date.getTime() - date.getTimezoneOffset() * 60000] is the reading of the
    local clock, taken as a time value. *)
Definition getDateInISOFormat {zone : JsDate.Zone} (useLocalDateTime : bool)
  (date : Z) (includeTime : bool) : string :=
  let date' := if useLocalDateTime then JsDate.localTime date else date in
  take (if includeTime then 19 else 10) (toISOString date').

End IsoFormat.

(** ** The editor's text edits, as far as documentActions uses them *)

Module VsCode.

Record Position : Type := mkPosition {
  line : Z;
  character : nat
}.

Record Range : Type := mkRange {
  start : Position;
  end_ : Position
}.

(** The entries of a [WorkspaceEdit] for one document. *)
Inductive TextEdit : Type :=
| Insert (position : Position) (newText : string)
| Delete (range : Range)
| Replace (range : Range) (newText : string).

Record TextLine : Type := mkTextLine {
  lineNumber : Z;
  text : string
}.

(** [line.range.end.character] *)
Definition endCharacter (l : TextLine) : nat := String.length (text l).

(** [line.firstNonWhitespaceCharacterIndex]: the length of the white space
    the line starts with. *)
Definition firstNonWhitespaceCharacterIndex (l : TextLine) : nat :=
  String.length (fst (Js.span Js.isSpace (text l))).

(** The text of a line after one edit whose positions lie in that line. *)
Definition editLine (e : TextEdit) (lineText : string) : string :=
  match e with
  | Insert p t =>
      IsoFormat.take (character p) lineText ++ t ++ IsoFormat.drop (character p) lineText
  | Delete r =>
      IsoFormat.take (character (start r)) lineText
      ++ IsoFormat.drop (character (end_ r)) lineText
  | Replace r t =>
      IsoFormat.take (character (start r)) lineText ++ t
      ++ IsoFormat.drop (character (end_ r)) lineText
  end.

End VsCode.

(** ** documentActions: the edits of single lines *)

Module DocumentEdits.

Import Js VsCode.

(** [s.trimEnd()] *)
Fixpoint trimEnd (s : string) : string :=
  match s with
  | EmptyString => EmptyString
  | String c s' =>
      match trimEnd s' with
      | EmptyString => if isSpace c then EmptyString else String c EmptyString
      | t => String c t
      end
  end.

(** [s.trim()] *)
Definition trim (s : string) : string := trimEnd (snd (span isSpace s)).

(** [s.endsWith(' ')] *)
Fixpoint endsWithSpace (s : string) : bool :=
  match s with
  | EmptyString => false
  | String c EmptyString => Ascii.eqb c " "
  | String _ s' => endsWithSpace s'
  end.

(** [String(n)] for an integer *)
Definition decimal (n : Z) : string := NilZero.string_of_int (Z.to_int n).

(** [String.fromCharCode(n)], for [n] from 0 to 255. *)
Definition fromCharCode (n : Z) : string :=
  String (ascii_of_N (Z.to_N n)) EmptyString.

(** [s.charCodeAt(0)], for a string that is not empty. *)
Definition charCodeAt0 (s : string) : Z :=
  match s with
  | String c _ => code c
  | EmptyString => 0
  end.

(** The [count] of a task: [{range, needed, current}]. *)
Record CountTag : Type := mkCountTag {
  range : Range;
  needed : Z;
  current : Z
}.

(** What the functions read of the task found at the line. *)
Record TaskAtLine : Type := mkTaskAtLine {
  priority : string;
  priorityRange : option Range;
  dueRange : option Range;
  overdueRange : option Range;
  collapseRange : option Range;
  count : option CountTag
}.

(** A sequence of character classes at the start of [s]: the rest of [s]
    behind it. *)
Fixpoint matchClasses (classes : list (ascii -> bool)) (s : string) : option string :=
  match classes with
  | [] => Some s
  | p :: classes' =>
      match s with
      | String c s' => if p c then matchClasses classes' s' else None
      | EmptyString => None
      end
  end.

Definition isChar (c : ascii) : ascii -> bool := fun x => Ascii.eqb x c.

(** [\s{cm:\d{4}-\d{2}-\d{2}] *)
Definition completionDateClasses : list (ascii -> bool) :=
  [isSpace; isChar "{"; isChar "c"; isChar "m"; isChar ":";
   isDigit; isDigit; isDigit; isDigit; isChar "-"; isDigit; isDigit; isChar "-"; isDigit; isDigit].

(** [T\d{2}:\d{2}:\d{2}] *)
Definition completionTimeClasses : list (ascii -> bool) :=
  [isChar "T"; isDigit; isDigit; isChar ":"; isDigit; isDigit; isChar ":"; isDigit; isDigit].

(** [}\s?] at the start of [s]: the rest behind it. *)
Definition closingBrace (s : string) : option string :=
  match s with
  | String c r =>
      if Ascii.eqb c "}" then
        match r with
        | String c' r' => if isSpace c' then Some r' else Some r
        | EmptyString => Some r
        end
      else None
  | EmptyString => None
  end.

(** [/\s{cm:\d{4}-\d{2}-\d{2}(T\d{2}:\d{2}:\d{2})?}\s?/] at the start of [s]:
    the length of the match.  When the group for the time matches and no
    brace follows, the pattern without the group finds a [T] where it wants
    the brace, so there is no second way to match. *)
Definition completionDateAt (s : string) : option nat :=
  match matchClasses completionDateClasses s with
  | Some afterDate =>
      let closed :=
        match matchClasses completionTimeClasses afterDate with
        | Some afterTime => closingBrace afterTime
        | None => closingBrace afterDate
        end in
      match closed with
      | Some rest => Some (String.length s - String.length rest)%nat
      | None => None
      end
  | None => None
  end.

(** [RegExp.prototype.exec] with the index of the match: the first position
    from [index] on at which [matchAt] succeeds. *)
Fixpoint execIndexFrom {A : Type} (matchAt : string -> option A) (s : string) (index : nat)
  : option (nat * A) :=
  match matchAt s with
  | Some m => Some (index, m)
  | None =>
      match s with
      | EmptyString => None
      | String _ s' => execIndexFrom matchAt s' (S index)
      end
  end.

(** [completionDateRegex.exec(text)]: [match.index] and [match[0].length]. *)
Definition completionDateRegex_exec (s : string) : option (nat * nat) :=
  execIndexFrom completionDateAt s 0.

Section Edits.

(** [extensionConfig.doneSymbol], [extensionConfig.completionDateIncludeTime],
    [config.useLocalDateTime]; the time zone of the host and the clock. *)
Context {zone : JsDate.Zone}.
Variable doneSymbol : string.
Variable completionDateIncludeTime : bool.
Variable useLocalDateTime : bool.
Variable now : Z.

Definition endOf (l : TextLine) : Position := mkPosition (lineNumber l) (endCharacter l).

Definition hideTask (l : TextLine) : list TextEdit := [Insert (endOf l) " {h}"].

Definition toggleTaskCollapse (l : TextLine) (task : option TaskAtLine) : list TextEdit :=
  match task with
  | Some t =>
      match collapseRange t with
      | Some r => [Delete r]
      | None => [Insert (endOf l) " {c}"]
      end
  | None => [Insert (endOf l) " {c}"]
  end.

Definition setDueDate (l : TextLine) (task : option TaskAtLine) (newDueDate : string)
  : list TextEdit :=
  let dueDate := "{due:" ++ newDueDate ++ "}" in
  let insert :=
    [Insert (endOf l) ((if endsWithSpace (text l) then "" else " ") ++ dueDate)] in
  match task with
  | Some t =>
      match dueRange t with
      | Some r => [Replace r dueDate]
      | None => insert
      end
  | None => insert
  end.

Definition toggleCommentAtLineWorkspaceEdit (l : TextLine) : list TextEdit :=
  if prefix "# " (text l) then
    [Delete (mkRange (mkPosition (lineNumber l) 0) (mkPosition (lineNumber l) 2))]
  else [Insert (mkPosition (lineNumber l) 0) "# "].

Inductive PriorityChange : Type := increment | decrement.

(** [None] is the [undefined] the source returns without an edit. *)
Definition incrementOrDecrementPriority (l : TextLine) (task : option TaskAtLine)
  (type : PriorityChange) : option (list TextEdit) :=
  match task with
  | None => None
  | Some t =>
      let atEnd :=
        match type with
        | increment => (priority t =? "A")%string
        | decrement => (priority t =? "Z")%string
        end in
      if atEnd then None
      else
        let newPriority :=
          match type with
          | increment => fromCharCode (charCodeAt0 (priority t) - 1)
          | decrement => fromCharCode (charCodeAt0 (priority t) + 1)
          end in
        match priorityRange t with
        | Some r => Some [Replace r ("(" ++ newPriority ++ ")")]
        | None => Some [Insert (mkPosition (lineNumber l) 0) ("(" ++ newPriority ++ ") ")]
        end
  end.

Definition removeOverdueEdit (t : TaskAtLine) : list TextEdit :=
  match overdueRange t with
  | Some r => [Delete r]
  | None => []
  end.

Definition insertCompletionDateEdit (l : TextLine) : list TextEdit :=
  [Insert (mkPosition (lineNumber l) (endCharacter l))
     (" {cm:"
      ++ IsoFormat.getDateInISOFormat useLocalDateTime now
           completionDateIncludeTime
      ++ "}")].

Definition removeDoneSymbolEdit (l : TextLine) : list TextEdit :=
  if prefix doneSymbol (trim (text l)) then
    [Delete (mkRange
               (mkPosition (lineNumber l) (firstNonWhitespaceCharacterIndex l))
               (mkPosition (lineNumber l)
                  (firstNonWhitespaceCharacterIndex l + String.length doneSymbol)))]
  else [].

Definition removeCompletionDateWorkspaceEdit (l : TextLine) : list TextEdit :=
  match completionDateRegex_exec (text l) with
  | Some (index, len) =>
      [Delete (mkRange (mkPosition (lineNumber l) index)
                 (mkPosition (lineNumber l) (index + len)))]
  | None => []
  end.

Definition addOverdueSpecialTagWorkspaceEdit (l : TextLine) (overdueDateString : string)
  : list TextEdit :=
  [Insert (mkPosition (lineNumber l) (endCharacter l))
     (" {overdue:" ++ overdueDateString ++ "}")].

Definition setCountCurrentValueEdit (c : CountTag) (value : string) : list TextEdit :=
  let charIndexWithOffset := (character (start (range c)) + String.length "count:" + 1)%nat in
  [Replace (mkRange
              (mkPosition (line (start (range c))) charIndexWithOffset)
              (mkPosition (line (start (range c)))
                 (charIndexWithOffset + String.length (decimal (current c)))))
     value].

(** [None] is the resolved [undefined]: no edit is applied. *)
Definition incrementCountForTask (l : TextLine) (task : TaskAtLine) : option (list TextEdit) :=
  match count task with
  | None => None
  | Some c =>
      if negb (current c =? needed c) then
        let newValue := current c + 1 in
        Some ((if newValue =? needed c then
                 insertCompletionDateEdit l ++ removeOverdueEdit task
               else [])
              ++ setCountCurrentValueEdit c (decimal newValue))%list
      else
        Some (setCountCurrentValueEdit c "0" ++ removeCompletionDateWorkspaceEdit l)%list
  end.

Definition decrementCountForTask (l : TextLine) (task : TaskAtLine) : option (list TextEdit) :=
  match count task with
  | None => None
  | Some c =>
      if current c =? 0 then None
      else
        Some ((if current c =? needed c then removeCompletionDateWorkspaceEdit l else [])
              ++ setCountCurrentValueEdit c (decimal (current c - 1)))%list
  end.

End Edits.

End DocumentEdits.

(** * Properties *)

(** ** Day arithmetic *)

Module DateFacts.

Import TimeUtils.

Lemma msPerDay_pos : 0 < JsDate.msPerDay.
Proof. reflexivity. Qed.

Section Local.

Context {zone : JsDate.Zone}.

Lemma shortenToDate_day (t : Z) :
  shortenToDate t = JsDate.midnight (JsDate.dayNumber t).
Proof. reflexivity. Qed.

Lemma shortenToDate_same_day (a b : Z) :
  JsDate.dayNumber a = JsDate.dayNumber b -> shortenToDate a = shortenToDate b.
Proof. intros H. rewrite !shortenToDate_day, H. reflexivity. Qed.

(** [new Date(y, m, d)] is a local midnight. *)
Lemma make_is_midnight (y m d : Z) :
  exists k, JsDate.make y m d = JsDate.midnight k.
Proof. unfold JsDate.make. eexists. reflexivity. Qed.



(** *** In a regular zone *)

Hypothesis Hzone : JsDate.regular zone.

Lemma dayNumber_midnight (k : Z) : JsDate.dayNumber (JsDate.midnight k) = k.
Proof.
  destruct Hzone as (Hmid & _). unfold JsDate.dayNumber. rewrite Hmid.
  apply Z.div_mul. discriminate.
Qed.

Lemma dayNumber_shortenToDate (t : Z) :
  JsDate.dayNumber (shortenToDate t) = JsDate.dayNumber t.
Proof. rewrite shortenToDate_day. apply dayNumber_midnight. Qed.

Lemma shortenToDate_midnight (k : Z) :
  shortenToDate (JsDate.midnight k) = JsDate.midnight k.
Proof. rewrite shortenToDate_day, dayNumber_midnight. reflexivity. Qed.

Lemma day_span (t : Z) :
  JsDate.midnight (JsDate.dayNumber t) <= t < JsDate.midnight (JsDate.dayNumber t + 1).
Proof. destruct Hzone as (_ & _ & Hspan). apply Hspan. Qed.

Lemma midnight_next (k : Z) : JsDate.midnight k < JsDate.midnight (k + 1).
Proof. pose proof (day_span (JsDate.midnight k)) as H. rewrite dayNumber_midnight in H. lia. Qed.

Lemma midnight_after (n : nat) (k : Z) :
  JsDate.midnight k + Z.of_nat n <= JsDate.midnight (k + Z.of_nat n).
Proof.
  induction n as [| n IH].
  - change (Z.of_nat 0) with 0. rewrite !Z.add_0_r. lia.
  - rewrite Nat2Z.inj_succ. replace (k + Z.succ (Z.of_nat n)) with (k + Z.of_nat n + 1) by lia.
    pose proof (midnight_next (k + Z.of_nat n)). lia.
Qed.

Lemma midnight_lt (j k : Z) : j < k -> JsDate.midnight j < JsDate.midnight k.
Proof.
  intros H. pose proof (midnight_after (Z.to_nat (k - j)) j) as Ha.
  rewrite Z2Nat.id in Ha by lia. replace (j + (k - j)) with k in Ha by lia. lia.
Qed.

Lemma midnight_le (j k : Z) : j <= k -> JsDate.midnight j <= JsDate.midnight k.
Proof.
  intros H. destruct (Z.eq_dec j k) as [-> | Hne]; [lia |].
  pose proof (midnight_lt j k). lia.
Qed.


(** An instant is before a midnight exactly when its day is before that
    midnight's day. *)
Lemma before_midnight (now k : Z) :
  (now <? JsDate.midnight k) = (JsDate.dayNumber now <? k).
Proof.
  pose proof (day_span now).
  destruct (Z.ltb_spec now (JsDate.midnight k)), (Z.ltb_spec (JsDate.dayNumber now) k);
    try reflexivity; exfalso.
  - pose proof (midnight_le k (JsDate.dayNumber now)). lia.
  - pose proof (midnight_le (JsDate.dayNumber now + 1) k). lia.
Qed.

(** The last millisecond of a day. *)
Lemma setHoursLast_day (t : Z) :
  JsDate.setHoursLast t = JsDate.midnight (JsDate.dayNumber t + 1) - 1.
Proof.
  destruct Hzone as (_ & Hlast & _). unfold JsDate.setHoursLast.
  rewrite <- Hlast. f_equal. unfold JsDate.msPerDay. lia.
Qed.




(** The state of an exact date: not due before its day; due on its day and
    as long as the midnight of today is less than 24 hours after the date's;
    overdue from then on. *)
Lemma isDueExactDate_midnight (now k : Z) :
  isDueExactDate now (JsDate.midnight k)
  = if JsDate.dayNumber now <? k then NotDue
    else if JsDate.midnight (JsDate.dayNumber now) - JsDate.midnight k <? JsDate.msPerDay
         then Due else Overdue.
Proof.
  unfold isDueExactDate. rewrite before_midnight, shortenToDate_midnight, shortenToDate_day.
  destruct (Z.ltb_spec (JsDate.dayNumber now) k) as [Hlt | Hge]; [reflexivity |].
  pose proof (midnight_le k (JsDate.dayNumber now) Hge) as Hle.
  unfold calcDiffInDays, ONE_DAY_IN_MS, JsDate.msPerDay.
  set (x := JsDate.midnight k - JsDate.midnight (JsDate.dayNumber now)).
  replace (JsDate.midnight (JsDate.dayNumber now) - JsDate.midnight k) with (- x) by (unfold x; lia).
  assert (Hx : x <= 0) by (unfold x; lia). clearbody x.
  destruct (Z.eqb_spec (x ÷ 86400000) 0) as [E | E], (Z.ltb_spec (- x) 86400000) as [L | L];
    try reflexivity; exfalso.
  - apply Z.quot_small_iff in E; [| discriminate]. lia.
  - apply E. apply Z.quot_small_iff; [discriminate |]. lia.
Qed.

(** On a day that lasts at least 24 hours, as every day does but the one on
    which the clock is set forward, an exact date is due on its day only. *)
Lemma isDueExactDate_full_day (now k : Z) :
  JsDate.msPerDay <= JsDate.midnight (k + 1) - JsDate.midnight k ->
  isDueExactDate now (JsDate.midnight k)
  = if JsDate.dayNumber now <? k then NotDue
    else if JsDate.dayNumber now =? k then Due else Overdue.
Proof.
  intros Hfull. rewrite isDueExactDate_midnight.
  destruct (Z.ltb_spec (JsDate.dayNumber now) k) as [Hlt | Hge]; [reflexivity |].
  destruct (Z.eqb_spec (JsDate.dayNumber now) k) as [-> | Hne].
  - rewrite Z.sub_diag. reflexivity.
  - pose proof (midnight_le (k + 1) (JsDate.dayNumber now)).
    destruct (Z.ltb_spec (JsDate.midnight (JsDate.dayNumber now) - JsDate.midnight k)
                JsDate.msPerDay); [lia | reflexivity].
Qed.

(** The day comparisons of dayjs, on day numbers. *)
Lemma isBeforeDay_spec (a b : Z) :
  Dayjs.isBeforeDay (Some a) (Some b) = (JsDate.dayNumber a <? JsDate.dayNumber b).
Proof.
  unfold Dayjs.isBeforeDay, Dayjs.endOfDay. rewrite setHoursLast_day.
  pose proof (before_midnight b (JsDate.dayNumber a + 1)) as Hb.
  destruct (Z.ltb_spec (JsDate.midnight (JsDate.dayNumber a + 1) - 1) b),
           (Z.ltb_spec b (JsDate.midnight (JsDate.dayNumber a + 1))),
           (Z.ltb_spec (JsDate.dayNumber b) (JsDate.dayNumber a + 1)),
           (Z.ltb_spec (JsDate.dayNumber a) (JsDate.dayNumber b));
    try reflexivity; try discriminate; lia.
Qed.

Lemma isAfterDay_spec (a b : Z) :
  Dayjs.isAfterDay (Some a) (Some b) = (JsDate.dayNumber b <? JsDate.dayNumber a).
Proof.
  unfold Dayjs.isAfterDay, Dayjs.startOfDay, JsDate.setHoursZero.
  apply before_midnight.
Qed.

Lemma isSameDay_spec (a b : Z) :
  Dayjs.isSameDay (Some a) (Some b) = (JsDate.dayNumber a =? JsDate.dayNumber b).
Proof.
  pose proof (isBeforeDay_spec a b) as Hb. pose proof (isAfterDay_spec a b) as Ha.
  unfold Dayjs.isSameDay, Dayjs.isBeforeDay, Dayjs.isAfterDay in *.
  rewrite (Z.leb_antisym b (Dayjs.startOfDay a)), (Z.leb_antisym (Dayjs.endOfDay a) b), Ha, Hb.
  destruct (Z.ltb_spec (JsDate.dayNumber b) (JsDate.dayNumber a)),
           (Z.ltb_spec (JsDate.dayNumber a) (JsDate.dayNumber b)),
           (Z.eqb_spec (JsDate.dayNumber a) (JsDate.dayNumber b));
    try reflexivity; lia.
Qed.

End Local.

End DateFacts.

(** ** The zones of the examples are regular *)

Module ZoneFacts.

Ltac zone_cases :=
  repeat match goal with
         | |- context [?a <? ?b] => destruct (Z.ltb_spec a b)
         | H : context [?a <? ?b] |- _ => destruct (Z.ltb_spec a b)
         end.

Lemma fixedOffset_regular (offset : Z) : JsDate.regular (Fixtures.fixedOffset offset).
Proof.
  unfold JsDate.regular, JsDate.midnight, JsDate.dayNumber, JsDate.msPerDay. cbn.
  repeat split; intros; try lia; Z.div_mod_to_equations; lia.
Qed.

Lemma utcZone_regular : JsDate.regular Fixtures.utcZone.
Proof. apply fixedOffset_regular. Qed.

Lemma newYork2018_regular : JsDate.regular Fixtures.newYork2018.
Proof.
  unfold JsDate.regular, JsDate.midnight, JsDate.dayNumber, JsDate.msPerDay. cbn.
  split; [| split].
  - intros k. zone_cases; lia.
  - intros k. zone_cases; lia.
  - intros t.
    assert (Hd : exists d, d = (if t <? 1520751600000 then t - 18000000
                                else if t <? 1541311200000 then t - 14400000
                                else t - 18000000) / 86400000) by (eexists; reflexivity).
    destruct Hd as [d Hd]. rewrite <- Hd.
    assert (Hb : d * 86400000 <= (if t <? 1520751600000 then t - 18000000
                                  else if t <? 1541311200000 then t - 14400000
                                  else t - 18000000) < d * 86400000 + 86400000)
      by (subst d; Z.div_mod_to_equations; lia).
    clear Hd. zone_cases; lia.
Qed.

End ZoneFacts.

(** ** Strings *)

Module StringFacts.

Import Js.

Lemma splitComma_not_nil (s : string) : splitComma s <> [].
Proof.
  destruct s as [| c s]; simpl; [discriminate |].
  destruct (Ascii.eqb c ","); [discriminate |].
  destruct (splitComma s); discriminate.
Qed.

Lemma consHead_app (c : ascii) (l1 l2 : list string) :
  l1 <> [] -> consHead c (l1 ++ l2)%list = (consHead c l1 ++ l2)%list.
Proof. destruct l1; [congruence | reflexivity]. Qed.

(** Splitting at a comma splits on both sides of it. *)
Lemma splitComma_app_comma (s1 s2 : string) :
  splitComma (s1 ++ String "," s2) = (splitComma s1 ++ splitComma s2)%list.
Proof.
  induction s1 as [| c s1 IH]; simpl; [reflexivity |].
  rewrite IH. destruct (Ascii.eqb c ","); [reflexivity |].
  apply consHead_app, splitComma_not_nil.
Qed.

Lemma dueDates_app_comma (s1 s2 : string) :
  TimeUtils.dueDates (s1 ++ String "," s2)
  = (TimeUtils.dueDates s1 ++ TimeUtils.dueDates s2)%list.
Proof.
  unfold TimeUtils.dueDates. rewrite splitComma_app_comma. apply filter_app.
Qed.

Lemma dueDates_empty : TimeUtils.dueDates EmptyString = [].
Proof. reflexivity. Qed.

Lemma dueDates_nonempty (due : string) :
  Forall (fun d => d <> EmptyString) (TimeUtils.dueDates due).
Proof.
  apply Forall_forall. intros d H. unfold TimeUtils.dueDates in H.
  apply filter_In in H. destruct H as [_ H]. intros ->. discriminate H.
Qed.

Lemma append_empty_r (s : string) : s ++ EmptyString = s.
Proof. induction s as [| c s IH]; simpl; [| rewrite IH]; reflexivity. Qed.

Lemma append_assoc (a b c : string) : (a ++ b) ++ c = a ++ (b ++ c).
Proof. induction a as [| x a IH]; simpl; [| rewrite IH]; reflexivity. Qed.

Lemma allChars_app (p : ascii -> bool) (a b : string) :
  allChars p (a ++ b) = allChars p a && allChars p b.
Proof.
  induction a as [| c a IH]; simpl; [reflexivity |].
  rewrite IH. apply andb_assoc.
Qed.

Lemma allChars_weaken (p q : ascii -> bool) (s : string) :
  (forall c, p c = true -> q c = true) -> allChars p s = true -> allChars q s = true.
Proof.
  intros Hpq. induction s as [| c s IH]; simpl; [reflexivity |].
  intros H. apply andb_prop in H. destruct H as [Hc Hs].
  rewrite (Hpq c Hc), (IH Hs). reflexivity.
Qed.

Lemma allDigits_allChars (s : string) : allDigits s = allChars isDigit s.
Proof. induction s as [| c s IH]; simpl; [| rewrite IH]; reflexivity. Qed.



(** A string without a full stop is one piece for [split('..')]. *)
Lemma splitDotDot_no_dot (s : string) :
  allChars notDot s = true -> splitDotDot s = [s].
Proof.
  induction s as [| c s IH]; [reflexivity |].
  intros H. simpl in H. apply andb_prop in H. destruct H as [Hc Hs].
  specialize (IH Hs). apply negb_true_iff in Hc.
  change (splitDotDot (String c s)) with
    (match s with
     | String c' s'' =>
         if Ascii.eqb c "." && Ascii.eqb c' "." then EmptyString :: splitDotDot s''
         else consHead c (splitDotDot s)
     | EmptyString => [String c EmptyString]
     end).
  destruct s as [| c' s'']; [reflexivity |].
  rewrite Hc, IH. reflexivity.
Qed.


Lemma splitDotDot_not_nil (s : string) : splitDotDot s <> [].
Proof.
  destruct s as [| c s]; [discriminate |].
  destruct s as [| c' s'']; [discriminate |].
  change (splitDotDot (String c (String c' s''))) with
    (if Ascii.eqb c "." && Ascii.eqb c' "." then EmptyString :: splitDotDot s''
     else consHead c (splitDotDot (String c' s''))).
  destruct (Ascii.eqb c "." && Ascii.eqb c' "."); [discriminate |].
  destruct (splitDotDot (String c' s'')); discriminate.
Qed.



Lemma isDigit_not (c d : ascii) :
  isDigit c = true -> isDigit d = false -> Ascii.eqb c d = false.
Proof.
  intros Hc Hd. destruct (Ascii.eqb_spec c d) as [-> |]; [congruence | reflexivity].
Qed.


End StringFacts.

(** ** parseDue, parseDueDate and the functions they call *)

Module DueDateFacts.

Import Js TimeUtils.

Section Local.

Context {zone : JsDate.Zone}.

Lemma isDueExactDate_states (now date : Z) :
  isDueExactDate now date = NotDue \/ isDueExactDate now date = Due
  \/ isDueExactDate now date = Overdue.
Proof.
  unfold isDueExactDate. destruct (now <? date); [auto |].
  destruct (_ =? 0); auto.
Qed.

Lemma isDueToday_states (now : Z) (due : string) :
  isDueToday now due = Due \/ isDueToday now due = NotDue.
Proof.
  unfold isDueToday.
  repeat match goal with
         | |- context [if ?b then _ else _] => destruct b; auto
         end.
Qed.

Lemma isDueWithDate_defined (dueDate : string) (start date : Z) :
  isDueWithDate dueDate (Some start) date = Ok Due
  \/ isDueWithDate dueDate (Some start) date = Ok NotDue.
Proof.
  unfold isDueWithDate.
  destruct (intervalPattern_exec dueDate) as [[capture1 unit] |]; [| auto].
  destruct (isDayUnit unit).
  - destruct (remIsZero _ _); auto.
  - destruct (isMonthUnit unit); auto.
Qed.

Lemma isDueBetween_states (parse : string -> option Z) (now : Z) (d1 d2 : string) :
  isRecurring (isDueBetween parse now d1 d2) = false
  /\ isRange (isDueBetween parse now d1 d2) = true
  /\ (isDue (isDueBetween parse now d1 d2) = Overdue
      \/ isDue (isDueBetween parse now d1 d2) = Due
      \/ isDue (isDueBetween parse now d1 d2) = NotDue).
Proof.
  unfold isDueBetween; simpl. repeat split.
  destruct (_ && _); [auto |].
  destruct (Dayjs.isBetweenDayInclusive _ _ _); auto.
Qed.

(** [parseDueDate] returns, and what it returns is never [Invalid]. *)
Lemma parseDueDate_returns (parse : string -> option Z) (now : Z) (due : string) :
  exists r, parseDueDate parse now due = Ok r
            /\ (isDue r = NotDue \/ isDue r = Due \/ isDue r = Overdue).
Proof.
  unfold parseDueDate.
  destruct (due =? "today")%string; [eexists; split; [reflexivity | simpl; auto] |].
  destruct (1 <? List.length (splitDotDot due))%nat.
  { eexists; split; [reflexivity |].
    destruct (isDueBetween_states parse now
                (nth 0 (splitDotDot due) EmptyString) (nth 1 (splitDotDot due) EmptyString))
      as (_ & _ & [H | [H | H]]); auto. }
  destruct (dueWithDateRegexp_exec due) as [m |].
  - destruct (algorithmText m) as [dueAlgorithm |].
    + destruct (everyNDayRegexp_exec dueAlgorithm).
      * destruct (isDueWithDate_defined dueAlgorithm
                    (JsDate.make (Number (yearText m)) (Number (monthText m) - 1)
                       (Number (dateText m))) now) as [H | H];
          rewrite H; simpl; eexists; split; try reflexivity; simpl; auto.
      * eexists; split; [reflexivity | simpl; auto].
    + eexists; split; [reflexivity | simpl].
      destruct (isDueExactDate_states now
                  (JsDate.make (Number (yearText m)) (Number (monthText m) - 1)
                     (Number (dateText m)))) as [H | [H | H]]; auto.
  - eexists; split; [reflexivity | simpl].
    destruct (isDueToday_states now due) as [H | H]; auto.
Qed.

Lemma mapM_length {A B : Type} (f : A -> Result B) (l : list A) (bs : list B) :
  mapM f l = Ok bs -> List.length bs = List.length l.
Proof.
  revert bs. induction l as [| a l IH]; simpl; intros bs H.
  - injection H as <-. reflexivity.
  - destruct (f a) as [b | msg]; simpl in H; [| discriminate].
    destruct (mapM f l) as [bs' | msg]; simpl in H; [| discriminate].
    injection H as <-. simpl. f_equal. apply IH. reflexivity.
Qed.

(** A string without a comma is one piece. *)
Lemma splitComma_no_comma (s : string) :
  allChars (fun c => negb (Ascii.eqb c ",")) s = true -> splitComma s = [s].
Proof.
  induction s as [| c s IH]; simpl; [reflexivity |].
  destruct (Ascii.eqb c ","); simpl; [discriminate |].
  intros H. rewrite (IH H). reflexivity.
Qed.

(** Splitting gives back the pieces that were joined with commas. *)
Lemma splitComma_concat (segments : list string) :
  segments <> [] ->
  Forall (fun s => allChars (fun c => negb (Ascii.eqb c ",")) s = true) segments ->
  splitComma (String.concat "," segments) = segments.
Proof.
  induction segments as [| x rest IH]; [congruence |]. intros _ H.
  inversion H as [| ? ? Hx Hrest]; subst.
  destruct rest as [| y rest].
  - apply splitComma_no_comma, Hx.
  - change (String.concat "," (x :: y :: rest))
      with (x ++ String "," (String.concat "," (y :: rest))).
    rewrite StringFacts.splitComma_app_comma, (splitComma_no_comma x Hx), IH;
      [reflexivity | discriminate | exact Hrest].
Qed.

Lemma length_zero_eqb (d : string) :
  negb (String.length d =? 0)%nat = negb (d =? EmptyString)%string.
Proof. destruct d; reflexivity. Qed.

(** C10.  [parseDue] drops the empty pieces between commas and keeps every
    other piece, in order: for pieces without a comma that are joined with
    commas, it evaluates exactly those that are not empty, one entry each.
    So no piece it hands to [parseDueDate] is empty; a comma in front, a
    comma at the end or a second comma after a comma changes nothing, and
    ["mon,"] gives what ["mon"] gives; and the empty string gives the empty
    list, not an entry with the state [Invalid]. *)
Theorem parseDue_discards_empty_alternatives
  (dayjsParse : string -> option Z) (now : Z) :
  (forall segments,
     segments <> [] ->
     Forall (fun s => allChars (fun c => negb (Ascii.eqb c ",")) s = true) segments ->
     parseDue dayjsParse now (String.concat "," segments)
     = mapM (parseDueDate dayjsParse now)
         (filter (fun s => negb (s =? EmptyString)%string) segments))
  /\ (forall d,
        d <> EmptyString -> allChars (fun c => negb (Ascii.eqb c ",")) d = true ->
        exists r, parseDueDate dayjsParse now d = Ok r
                  /\ parseDue dayjsParse now d = Ok [r]
                  /\ parseDue dayjsParse now ("," ++ d ++ ",,") = Ok [r])
  /\ (forall due, Forall (fun d => d <> EmptyString) (dueDates due))
  /\ (forall due l, parseDue dayjsParse now due = Ok l ->
                    List.length l = List.length (dueDates due))
  /\ (forall due, parseDue dayjsParse now ("," ++ due) = parseDue dayjsParse now due)
  /\ (forall due, parseDue dayjsParse now (due ++ ",") = parseDue dayjsParse now due)
  /\ (forall a b, parseDue dayjsParse now (a ++ ",," ++ b)
                  = parseDue dayjsParse now (a ++ "," ++ b))
  /\ parseDue dayjsParse now "mon," = parseDue dayjsParse now "mon"
  /\ parseDue dayjsParse now EmptyString = Ok [].
Proof.
  assert (Hjoin : forall segments,
            segments <> [] ->
            Forall (fun s => allChars (fun c => negb (Ascii.eqb c ",")) s = true) segments ->
            parseDue dayjsParse now (String.concat "," segments)
            = mapM (parseDueDate dayjsParse now)
                (filter (fun s => negb (s =? EmptyString)%string) segments)).
  { intros segments Hne Hfree. unfold parseDue, dueDates.
    rewrite (splitComma_concat segments Hne Hfree).
    rewrite (filter_ext _ _ length_zero_eqb). reflexivity. }
  split; [exact Hjoin |].
  split.
  { intros d Hd Hfree. destruct (parseDueDate_returns dayjsParse now d) as (r & Hr & _).
    exists r. split; [exact Hr |].
    assert (Hkeep : (negb (d =? EmptyString)%string) = true).
    { destruct d; [congruence | reflexivity]. }
    split.
    - pose proof (Hjoin [d] ltac:(discriminate) (Forall_cons _ Hfree (Forall_nil _))) as H1.
      cbn [String.concat filter] in H1. rewrite Hkeep in H1.
      cbn [mapM] in H1. rewrite Hr in H1. exact H1.
    - pose proof (Hjoin [EmptyString; d; EmptyString; EmptyString] ltac:(discriminate)) as H1.
      cbn [String.concat filter String.eqb negb] in H1. rewrite Hkeep in H1.
      cbn [mapM] in H1. rewrite Hr in H1. apply H1.
      repeat constructor. exact Hfree. }
  split; [exact StringFacts.dueDates_nonempty |].
  split; [intros due l H; exact (mapM_length _ _ _ H) |].
  split; [intros due; reflexivity |].
  split.
  { intros due. unfold parseDue.
    change (due ++ ",") with (due ++ String "," EmptyString).
    rewrite StringFacts.dueDates_app_comma, StringFacts.dueDates_empty, app_nil_r.
    reflexivity. }
  split.
  { intros a b. unfold parseDue.
    change (a ++ ",," ++ b) with (a ++ String "," ("," ++ b)).
    change (a ++ "," ++ b) with (a ++ String "," b).
    rewrite !StringFacts.dueDates_app_comma. reflexivity. }
  split; reflexivity.
Qed.

(** C8.  [isDueWithDate] throws exactly when the start date is
    [undefined]; with a start date it returns [Due] or [NotDue], whatever
    the expression string and the two dates are. *)
Theorem isDueWithDate_throws_iff_no_start
  (dueDate : string) (dueDateStart : option Z) (date : Z) :
  ((exists message, isDueWithDate dueDate dueDateStart date = Throw message)
   <-> dueDateStart = None)
  /\ (forall start, dueDateStart = Some start ->
        isDueWithDate dueDate dueDateStart date = Ok Due
        \/ isDueWithDate dueDate dueDateStart date = Ok NotDue).
Proof.
  split.
  - split.
    + intros [message H]. destruct dueDateStart as [start |]; [| reflexivity].
      destruct (isDueWithDate_defined dueDate start date) as [E | E];
        rewrite E in H; discriminate.
    + intros ->. eexists. reflexivity.
  - intros start ->. apply isDueWithDate_defined.
Qed.

End Local.

End DueDateFacts.

(** ** What the fixtures of the tests give *)

Module FixtureFacts.

Import Js TimeUtils.

Section Local.

Context {zone : JsDate.Zone}.

(** 1 January 2018 is a Monday. *)
Lemma getDay_monday20180101 :
  JsDate.regular zone -> JsDate.getDay Fixtures.monday20180101 = 1.
Proof.
  intros Hz. unfold JsDate.getDay.
  change Fixtures.monday20180101 with (JsDate.midnight 17532).
  rewrite (DateFacts.dayNumber_midnight Hz). reflexivity.
Qed.

(** C1.  On the four strings the tests call invalid, [parseDueDate] does not
    give [Invalid]: ["2020"] and ["2020-05-2"] are read as names of days
    that never match; in ["2020-07-31|e14"] the unanchored pattern finds the
    date 2020-07-31 and the rest is dropped; ["2020-07-35"] is the exact date
    4 August 2020.  No string at all gives [Invalid]. *)
Theorem parseDueDate_never_gives_Invalid (dayjsParse : string -> option Z) (now : Z) :
  parseDueDate dayjsParse now "2020" = Ok (mkDueReturn true false NotDue)
  /\ parseDueDate dayjsParse now "2020-05-2" = Ok (mkDueReturn true false NotDue)
  /\ parseDueDate dayjsParse now "2020-07-31|e14"
     = Ok (mkDueReturn false false (isDueExactDate now (JsDate.make 2020 6 31)))
  /\ parseDueDate dayjsParse now "2020-07-35"
     = Ok (mkDueReturn false false (isDueExactDate now (JsDate.make 2020 6 35)))
  /\ JsDate.make 2020 6 35 = JsDate.make 2020 7 4
  /\ (forall due, exists r,
        parseDueDate dayjsParse now due = Ok r
        /\ (isDue r = NotDue \/ isDue r = Due \/ isDue r = Overdue)).
Proof.
  repeat (split; [reflexivity |]).
  intros due. apply DueDateFacts.parseDueDate_returns.
Qed.

(** C2.  Only the seven spellings [Sun], [Mon], ..., [Sat] are compared with
    the day of the week.  ["monday"], ["mon"], ["Monday"] and ["MON"] are
    recurring and not due on every day, Mondays included; 1 January 2018 is a
    Monday.  A string that [isDueToday] finds due is ["ed"] or one of the
    seven spellings. *)
Theorem weekday_names_other_than_Mon_never_due (dayjsParse : string -> option Z) (now : Z) :
  parseDueDate dayjsParse now "monday" = Ok (mkDueReturn true false NotDue)
  /\ parseDueDate dayjsParse now "mon" = Ok (mkDueReturn true false NotDue)
  /\ parseDueDate dayjsParse now "Monday" = Ok (mkDueReturn true false NotDue)
  /\ parseDueDate dayjsParse now "MON" = Ok (mkDueReturn true false NotDue)
  /\ parseDueDate dayjsParse now "Mon"
     = Ok (mkDueReturn true false (if JsDate.getDay now =? 1 then Due else NotDue))
  /\ (JsDate.regular zone -> JsDate.getDay Fixtures.monday20180101 = 1)
  /\ (forall due, isDueToday now due = Due ->
                  In due ["ed"; "Sun"; "Mon"; "Tue"; "Wed"; "Thu"; "Fri"; "Sat"]).
Proof.
  repeat (split; [reflexivity |]).
  split; [exact getDay_monday20180101 |].
  intros due. unfold isDueToday.
  repeat match goal with
         | |- context [(due =? ?s)%string] =>
             destruct (String.eqb_spec due s) as [-> | _]; [intros _; simpl; tauto |]
         end.
  cbn [andb]. discriminate.
Qed.

(** C4.  ["mon,sun"] gives two alternatives that are not due on every day,
    Mondays and Sundays included, so no rule for combining them gives
    [Due]; the rule of the specification gives [NotDue]. *)
Theorem mon_sun_never_due (dayjsParse : string -> option Z) (now : Z) :
  parseDue dayjsParse now "mon,sun"
  = Ok [mkDueReturn true false NotDue; mkDueReturn true false NotDue]
  /\ dueStateOfAlternatives [NotDue; NotDue] = NotDue
  /\ (JsDate.regular zone -> JsDate.getDay Fixtures.monday20180101 = 1).
Proof. repeat split. exact getDay_monday20180101. Qed.

(** With the spellings the source knows, the day of the week decides. *)
Lemma capitalised_abbreviation_due_iff (dayjsParse : string -> option Z) (now : Z) :
  Forall (fun p => parseDueDate dayjsParse now (fst p)
                   = Ok (mkDueReturn true false
                           (if JsDate.getDay now =? snd p then Due else NotDue)))
    [("Sun", 0); ("Mon", 1); ("Tue", 2); ("Wed", 3); ("Thu", 4); ("Fri", 5); ("Sat", 6)].
Proof.
  assert (H : 0 <= JsDate.getDay now < 7)
    by (unfold JsDate.getDay; apply Z.mod_pos_bound; reflexivity).
  repeat constructor; unfold parseDueDate; simpl; unfold isDueToday; simpl;
    repeat match goal with
           | |- context [?a =? ?b] => destruct (Z.eqb_spec a b)
           end; try reflexivity; lia.
Qed.

Lemma Mon_Sun_on_a_monday (dayjsParse : string -> option Z) :
  JsDate.regular zone ->
  parseDue dayjsParse Fixtures.monday20180101 "Mon,Sun"
  = Ok [mkDueReturn true false Due; mkDueReturn true false NotDue]
  /\ dueStateOfAlternatives [Due; NotDue] = Due.
Proof.
  intros Hz. split; [| reflexivity].
  unfold parseDue. cbn [dueDates]. change (dueDates "Mon,Sun") with ["Mon"; "Sun"].
  cbn [mapM]. unfold parseDueDate. cbn. unfold isDueToday. cbn.
  rewrite (getDay_monday20180101 Hz). reflexivity.
Qed.

End Local.

End FixtureFacts.

(** ** Whole days *)

Module WholeDayFacts.

Import Js TimeUtils.

Section Regular.

Context {zone : JsDate.Zone}.
Hypothesis Hzone : JsDate.regular zone.








End Regular.

Section Local.

Context {zone : JsDate.Zone}.


End Local.

Section InNewYork.

#[local] Existing Instance Fixtures.newYork2018.



(** Without the cut to midnight the quotient is not the number of calendar
    days: from 23:00 to 1:00 of the next day it is 0. *)
Lemma calcDiffInDays_of_raw_instants :
  calcDiffInDays (JsDate.make 2018 0 1 + 82800000) (JsDate.make 2018 0 2 + 3600000) = 0
  /\ calcDiffInDays (shortenToDate (JsDate.make 2018 0 1 + 82800000))
       (shortenToDate (JsDate.make 2018 0 2 + 3600000)) = 1.
Proof. split; reflexivity. Qed.

End InNewYork.

End WholeDayFacts.

(** ** Recurrence every N days *)

Module IntervalFacts.

Import Js TimeUtils StringFacts.

Section Local.

Context {zone : JsDate.Zone}.

Lemma length_four (s : string) :
  String.length s = 4%nat ->
  exists a b c d, s = String a (String b (String c (String d EmptyString))).
Proof.
  destruct s as [| a [| b [| c [| d [| e s]]]]]; try discriminate.
  intros _. eauto.
Qed.

Lemma length_two (s : string) :
  String.length s = 2%nat -> exists a b, s = String a (String b EmptyString).
Proof.
  destruct s as [| a [| b [| c s]]]; try discriminate.
  intros _. eauto.
Qed.

Lemma execFrom_here {A : Type} (matchAt : string -> option A) (s : string) (m : A) :
  matchAt s = Some m -> execFrom matchAt s = Some m.
Proof. intros H. destruct s; simpl; rewrite H; reflexivity. Qed.


Lemma isDigit_notDot (c : ascii) : isDigit c = true -> notDot c = true.
Proof.
  intros H. unfold notDot. rewrite (isDigit_not c "." H); reflexivity.
Qed.


Lemma digits_notDot (s : string) : allDigits s = true -> allChars notDot s = true.
Proof.
  rewrite allDigits_allChars. apply allChars_weaken, isDigit_notDot.
Qed.




Lemma remIsZero_divide (a b : Z) :
  remIsZero a b = true <-> b <> 0 /\ (b | a).
Proof.
  unfold remIsZero. destruct (Z.eqb_spec b 0) as [-> | Hb].
  - split; [discriminate | intros [H _]; congruence].
  - rewrite Z.eqb_eq, (Z.rem_divide a b Hb). tauto.
Qed.

Section DatedExpression.

Variables yyyy mm dd : string.
Hypothesis Hy : String.length yyyy = 4%nat.
Hypothesis Hm : String.length mm = 2%nat.
Hypothesis Hd : String.length dd = 2%nat.
Hypothesis Dy : allDigits yyyy = true.
Hypothesis Dm : allDigits mm = true.
Hypothesis Dd : allDigits dd = true.




End DatedExpression.


(** With the vertical bar of the tests the suffix is not read: the
    expression is the exact date 2018-01-01, which is never [NotDue] from
    that day on. *)
Lemma vertical_bar_is_an_exact_date (dayjsParse : string -> option Z) (now : Z) :
  parseDueDate dayjsParse now "2018-01-01|e2d"
  = Ok (mkDueReturn false false (isDueExactDate now (JsDate.make 2018 0 1)))
  /\ (JsDate.make 2018 0 1 <= now -> isDueExactDate now (JsDate.make 2018 0 1) <> NotDue).
Proof.
  split; [reflexivity |]. intros H. unfold isDueExactDate.
  destruct (Z.ltb_spec now (JsDate.make 2018 0 1)); [lia |].
  destruct (_ =? 0); discriminate.
Qed.

End Local.

Section InNewYork.

#[local] Existing Instance Fixtures.newYork2018.



(** The expression of the tests with a hyphen, on 1, 2 and 3 January 2018. *)
Lemma every_two_days_from_20180101 (dayjsParse : string -> option Z) :
  parseDueDate dayjsParse (JsDate.make 2018 0 1) "2018-01-01-e2d"
  = Ok (mkDueReturn true false Due)
  /\ parseDueDate dayjsParse (JsDate.make 2018 0 2) "2018-01-01-e2d"
     = Ok (mkDueReturn true false NotDue)
  /\ parseDueDate dayjsParse (JsDate.make 2018 0 3) "2018-01-01-e2d"
     = Ok (mkDueReturn true false Due).
Proof. repeat split. Qed.

(** The expression of the tests as it is, on the same three days: due, then
    overdue, and never recurring. *)
Lemma vertical_bar_from_20180101 (dayjsParse : string -> option Z) :
  parseDueDate dayjsParse (JsDate.make 2018 0 1) "2018-01-01|e2d"
  = Ok (mkDueReturn false false Due)
  /\ parseDueDate dayjsParse (JsDate.make 2018 0 2) "2018-01-01|e2d"
     = Ok (mkDueReturn false false Overdue)
  /\ parseDueDate dayjsParse (JsDate.make 2018 0 3) "2018-01-01|e2d"
     = Ok (mkDueReturn false false Overdue).
Proof. repeat split. Qed.

(** Across the day on which the clock is set forward the count of days is
    one short: 12 March 2018 is 70 days after 1 January, the midnights are
    an hour less than 70 times 24 hours apart, and the expression for every
    second day is not due. *)
Lemma every_two_days_across_the_short_day (dayjsParse : string -> option Z) :
  JsDate.dayNumber (JsDate.make 2018 2 12) - JsDate.dayNumber (JsDate.make 2018 0 1) = 70
  /\ calcDiffInDays (shortenToDate (JsDate.make 2018 0 1)) (shortenToDate (JsDate.make 2018 2 12))
     = 69
  /\ parseDueDate dayjsParse (JsDate.make 2018 2 12) "2018-01-01-e2d"
     = Ok (mkDueReturn true false NotDue).
Proof. repeat split. Qed.

End InNewYork.

End IntervalFacts.

(** ** Date ranges *)

Module RangeFacts.

Import Js TimeUtils StringFacts.

Section Regular.

Context {zone : JsDate.Zone}.
Hypothesis Hzone : JsDate.regular zone.



Lemma after_or_before (now : Z) (x : option Z) :
  Dayjs.isAfterDay (Some now) x && Dayjs.isBeforeDay (Some now) x = false.
Proof.
  destruct x as [t |]; [| reflexivity].
  rewrite (DateFacts.isAfterDay_spec Hzone), (DateFacts.isBeforeDay_spec Hzone).
  destruct (Z.ltb_spec (JsDate.dayNumber t) (JsDate.dayNumber now)),
           (Z.ltb_spec (JsDate.dayNumber now) (JsDate.dayNumber t));
    try reflexivity; lia.
Qed.

(** [isDueBetween] has no way to [Invalid]; an end that is no date makes
    every comparison with it false, and the state is [Due]. *)
Lemma isDueBetween_invalid_end (parse : string -> option Z) (now : Z) (d1 d2 : string) :
  parse d1 = None \/ parse d2 = None ->
  isDueBetween parse now d1 d2 = mkDueReturn false true Due.
Proof.
  unfold isDueBetween, Dayjs.isBetweenDayInclusive.
  intros [E | E]; rewrite E.
  - pose proof (after_or_before now (parse d2)) as H.
    replace (Dayjs.isBeforeDay None (Some now)) with false by reflexivity.
    replace (Dayjs.isBeforeDay (Some now) None) with false by reflexivity.
    replace (Dayjs.isAfterDay (Some now) None) with false by reflexivity.
    cbn [andb].
    destruct (Dayjs.isAfterDay (Some now) (parse d2)), (Dayjs.isBeforeDay (Some now) (parse d2));
      try reflexivity; discriminate H.
  - pose proof (after_or_before now (parse d1)) as H.
    replace (Dayjs.isBeforeDay None (Some now)) with false by reflexivity.
    replace (Dayjs.isBeforeDay (Some now) None) with false by reflexivity.
    replace (Dayjs.isAfterDay (Some now) None) with false by reflexivity.
    rewrite andb_false_r.
    destruct (Dayjs.isAfterDay (Some now) (parse d1)), (Dayjs.isBeforeDay (Some now) (parse d1));
      try reflexivity; discriminate H.
Qed.

End Regular.

Section Local.

Context {zone : JsDate.Zone}.


End Local.

Section OnUtc.

#[local] Existing Instance Fixtures.utcZone.



(** A range written backwards is due between its ends all the same. *)
Lemma range_written_backwards :
  parseDueDate Fixtures.dayjsDateOnly (JsDate.make 2020 0 5) "2020-01-10..2020-01-01"
  = Ok (mkDueReturn false true Due).
Proof. reflexivity. Qed.

End OnUtc.

End RangeFacts.

(** ** The reset of recurring tasks *)

Module ResetFacts.

Import DocumentActions.

Section Local.

Context {zone : JsDate.Zone}.

Section Scan.

Variable dueDateIsDue : string -> Z -> DueState.
Variable now : Z.
Variable dueRaw : string.



End Scan.



End Local.

Section InNewYork.

#[local] Existing Instance Fixtures.newYork2018.



End InNewYork.

End ResetFacts.

(** ** Grouping for the tree views *)

Module GroupingFacts.

Import TreeViews.

Lemma In_insertIndexKey (e x : string * list TheTask) (l : TempTitleLineNumberMap) :
  In e (insertIndexKey x l) <-> e = x \/ In e l.
Proof.
  induction l as [| y l IH]; simpl; [intuition auto |].
  destruct (_ <=? _); simpl; [intuition auto |].
  rewrite IH. intuition auto.
Qed.

Lemma In_sorted_index_keys (e : string * list TheTask) (l : TempTitleLineNumberMap) :
  In e (fold_right insertIndexKey [] l) <-> In e l.
Proof.
  induction l as [| y l IH]; simpl; [tauto |].
  rewrite In_insertIndexKey, IH. intuition auto.
Qed.

(** The enumeration reorders the entries and loses none. *)
Lemma In_ownEntries (e : string * list TheTask) (m : TempTitleLineNumberMap) :
  In e (ownEntries m) <-> In e m.
Proof.
  unfold ownEntries. rewrite in_app_iff, In_sorted_index_keys, !filter_In.
  destruct (isArrayIndex (fst e)); simpl; intuition congruence.
Qed.

Lemma In_objectKeys (key : string) (m : TempTitleLineNumberMap) :
  In key (objectKeys m) <-> In key (keysOf m).
Proof.
  unfold objectKeys, keysOf. rewrite !in_map_iff.
  split; intros (e & E & H); exists e; (split; [exact E |]); apply In_ownEntries; exact H.
Qed.

Lemma lookup_In (m : TempTitleLineNumberMap) (key : string) (v : list TheTask) :
  lookup m key = Some v -> In key (keysOf m).
Proof.
  induction m as [| [k w] m IH]; simpl; [discriminate |].
  destruct (String.eqb_spec k key) as [-> | _]; [auto | intros H; right; exact (IH H)].
Qed.

Lemma keysOf_pushAt (m : TempTitleLineNumberMap) (key : string) (task : TheTask) :
  keysOf (pushAt m key task) = keysOf m.
Proof.
  induction m as [| [k w] m IH]; simpl; [reflexivity |].
  destruct (k =? key)%string; simpl; [| rewrite IH]; reflexivity.
Qed.

Lemma keysOf_addTo (m m' : TempTitleLineNumberMap) (key : string) (task : TheTask) :
  addTo m key task = Ok m' ->
  forall k, In k (keysOf m') <-> In k (keysOf m) \/ k = key.
Proof.
  unfold addTo. destruct (lookup m key) as [v |] eqn:E.
  - intros H k. injection H as <-. rewrite keysOf_pushAt.
    split; [auto | intros [H | ->]; [exact H | exact (lookup_In _ _ _ E)]].
  - destruct (existsb _ _); [discriminate |].
    intros H k. injection H as <-. unfold keysOf. rewrite map_app, in_app_iff. simpl.
    intuition auto.
Qed.

Lemma keysOf_addAll (keys : list string) (task : TheTask) (m m' : TempTitleLineNumberMap) :
  addAll m keys task = Ok m' ->
  forall k, In k (keysOf m') <-> In k (keysOf m) \/ In k keys.
Proof.
  revert m. induction keys as [| key keys IH]; simpl; intros m H k.
  - injection H as <-. tauto.
  - destruct (addTo m key task) as [m1 | msg] eqn:E; simpl in H; [| discriminate].
    rewrite (IH m1 H k), (keysOf_addTo m m1 key task E k). intuition auto.
Qed.

Lemma exists_in_cons {A : Type} (P : A -> Prop) (x : A) (l : list A) :
  (exists t, (x = t \/ In t l) /\ P t) <-> P x \/ exists t, In t l /\ P t.
Proof.
  split.
  - intros (t & [<- | H] & Ht); [left; exact Ht | right; exists t; auto].
  - intros [H | (t & H & Ht)]; [exists x; auto | exists t; auto].
Qed.

Lemma keysOf_forEachTask (visited : list TheTask)
  (tagMap projectMap contextMap tagMap' projectMap' contextMap' : TempTitleLineNumberMap) :
  forEachTask groupTask (tagMap, projectMap, contextMap) visited
  = Ok (tagMap', projectMap', contextMap') ->
  forall k,
    (In k (keysOf tagMap')
     <-> In k (keysOf tagMap) \/ exists t, In t visited /\ In k (tags t))
    /\ (In k (keysOf projectMap')
        <-> In k (keysOf projectMap) \/ exists t, In t visited /\ In k (projects t))
    /\ (In k (keysOf contextMap')
        <-> In k (keysOf contextMap) \/ exists t, In t visited /\ In k (contexts t)).
Proof.
  revert tagMap projectMap contextMap.
  induction visited as [| task rest IH]; simpl; intros tagMap projectMap contextMap H k.
  - injection H as <- <- <-. repeat split; try tauto; intros [H | (t & [] & _)]; exact H.
  - destruct (addAll tagMap (tags task) task) as [tm | msg] eqn:Et; simpl in H; [| discriminate].
    destruct (addAll projectMap (projects task) task) as [pm | msg] eqn:Ep; simpl in H;
      [| discriminate].
    destruct (addAll contextMap (contexts task) task) as [cm | msg] eqn:Ec; simpl in H;
      [| discriminate].
    destruct (IH tm pm cm H k) as (Ht & Hp & Hc).
    rewrite Ht, Hp, Hc.
    rewrite (keysOf_addAll _ _ _ _ Et k), (keysOf_addAll _ _ _ _ Ep k),
      (keysOf_addAll _ _ _ _ Ec k).
    rewrite !exists_in_cons. tauto.
Qed.

(** C9.  [groupAndSortTreeItems] returns the same for any two arguments:
    what it groups are the tasks [forEachTask] walks, which come from the
    extension state.  The names it lists are the tags, projects and contexts
    of those tasks. *)
Theorem groupAndSortTreeItems_ignores_its_argument
  (localeCompare : string -> string -> Z)
  (sortTagsView sortProjectsView sortContextsView : TreeItemSortType)
  (stateTasks tasks1 tasks2 : list TheTask) :
  groupAndSortTreeItems localeCompare sortTagsView sortProjectsView sortContextsView
    stateTasks tasks1
  = groupAndSortTreeItems localeCompare sortTagsView sortProjectsView sortContextsView
      stateTasks tasks2
  /\ (forall items,
        groupAndSortTreeItems localeCompare sortTagsView sortProjectsView sortContextsView
          stateTasks tasks1 = Ok items ->
        forall k,
          (In k (tagsList items) <-> exists t, In t stateTasks /\ In k (tags t))
          /\ (In k (projectsList items) <-> exists t, In t stateTasks /\ In k (projects t))
          /\ (In k (contextsList items) <-> exists t, In t stateTasks /\ In k (contexts t))).
Proof.
  split; [reflexivity |].
  intros items H k. unfold groupAndSortTreeItems in H.
  destruct (forEachTask groupTask ([], [], []) stateTasks) as [[[tm pm] cm] | msg] eqn:E;
    simpl in H; [| discriminate].
  injection H as <-. cbn [tagsList projectsList contextsList].
  rewrite !In_objectKeys.
  destruct (keysOf_forEachTask stateTasks [] [] [] tm pm cm E k) as (Ht & Hp & Hc).
  rewrite Ht, Hp, Hc. simpl. tauto.
Qed.

(** The tasks of the state decide the result, the argument does not. *)
Lemma groupAndSortTreeItems_follows_the_state :
  groupAndSortTreeItems (fun _ _ => 0) ByCount ByCount ByCount
    [mkTheTask 0 ["a"] [] [] false None None None] []
  = Ok (mkParsedItems ["a"] [] []
          [mkItem "a" [mkTheTask 0 ["a"] [] [] false None None None]] [] [])
  /\ groupAndSortTreeItems (fun _ _ => 0) ByCount ByCount ByCount
       [] [mkTheTask 0 ["a"] [] [] false None None None]
     = Ok (mkParsedItems [] [] [] [] [] []).
Proof. split; reflexivity. Qed.

(** A tag named like a member of [Object.prototype] makes the grouping
    throw. *)
Lemma groupAndSortTreeItems_inherited_key :
  groupAndSortTreeItems (fun _ _ => 0) ByCount ByCount ByCount
    [mkTheTask 0 ["constructor"] [] [] false None None None] []
  = Throw "TypeError: push is not a function".
Proof. reflexivity. Qed.

End GroupingFacts.

(** ** Shifting, cutting and comparing dates *)

Module DayArithmeticFacts.

Import TimeUtils.

(** X1.  [shiftDays] and [calcDiffInDays] undo each other on time values:
    the difference from a date to the date shifted by [n] days is [n], and
    shifting a date by its difference to a second date gives the second
    date exactly when the two are a whole number of 24-hour days apart.
    Shifts add up, a shift by 0 changes nothing, and shifting both dates
    alike keeps their difference. *)
Theorem shiftDays_calcDiffInDays_round_trip (d d' n m : Z) :
  calcDiffInDays d (shiftDays d n) = n
  /\ (shiftDays d (calcDiffInDays d d') = d' <-> (ONE_DAY_IN_MS | d' - d))
  /\ shiftDays (shiftDays d n) m = shiftDays d (n + m)
  /\ shiftDays d 0 = d
  /\ calcDiffInDays (shiftDays d n) (shiftDays d' n) = calcDiffInDays d d'.
Proof.
  split.
  { unfold calcDiffInDays, shiftDays.
    replace (d + ONE_DAY_IN_MS * n - d) with (n * ONE_DAY_IN_MS) by lia.
    apply Z.quot_mul. discriminate. }
  split.
  { unfold shiftDays, calcDiffInDays. split.
    - intros H. exists ((d' - d) ÷ ONE_DAY_IN_MS). lia.
    - intros [q Hq]. rewrite Hq, Z.quot_mul by discriminate. lia. }
  split; [unfold shiftDays; lia |].
  split; [unfold shiftDays; lia |].
  unfold calcDiffInDays, shiftDays. f_equal. lia.
Qed.

Section Local.

Context {zone : JsDate.Zone}.

(** X2.  In a regular zone [shortenToDate] gives the last local midnight
    that is not after the date: cutting twice is cutting once, the result is
    not after the date, the clock reads 0:00 of the date's day at it, no
    midnight lies between it and the date, the next midnight is after the
    date, and it is on the same day as the date. *)
Theorem shortenToDate_is_last_midnight (d : Z) :
  JsDate.regular zone ->
  shortenToDate (shortenToDate d) = shortenToDate d
  /\ shortenToDate d <= d < JsDate.midnight (JsDate.dayNumber d + 1)
  /\ JsDate.localTime (shortenToDate d) = JsDate.dayNumber d * ONE_DAY_IN_MS
  /\ (forall k, JsDate.midnight k <= d -> JsDate.midnight k <= shortenToDate d)
  /\ isTheSameDay d (shortenToDate d) = true.
Proof.
  intros Hz.
  split.
  { rewrite (DateFacts.shortenToDate_day d). apply (DateFacts.shortenToDate_midnight Hz). }
  split; [apply (DateFacts.day_span Hz) |].
  split; [destruct Hz as (Hmid & _); apply Hmid |].
  split.
  { intros k Hk. rewrite DateFacts.shortenToDate_day.
    apply (DateFacts.midnight_le Hz).
    destruct (Z_le_gt_dec k (JsDate.dayNumber d)) as [Hle | Hgt]; [exact Hle | exfalso].
    pose proof (DateFacts.midnight_le Hz (JsDate.dayNumber d + 1) k).
    pose proof (DateFacts.day_span Hz d). lia. }
  unfold isTheSameDay. rewrite (DateFacts.dayNumber_shortenToDate Hz). apply Z.eqb_refl.
Qed.

(** X4.  In a regular zone two dates are on the same day for [isTheSameDay]
    exactly when [shortenToDate] gives the same midnight for both, and
    exactly when the day test of dayjs, which the reset of recurring tasks
    uses, says so; the midnights of dates of one day are no day apart. *)
Theorem isTheSameDay_agrees_with_shortenToDate (d1 d2 : Z) :
  JsDate.regular zone ->
  (isTheSameDay d1 d2 = true <-> shortenToDate d1 = shortenToDate d2)
  /\ isTheSameDay d1 d2 = Dayjs.isSameDay (Some d1) (Some d2)
  /\ isTheSameDay d1 d2 = isTheSameDay d2 d1
  /\ (isTheSameDay d1 d2 = true ->
      calcDiffInDays (shortenToDate d1) (shortenToDate d2) = 0).
Proof.
  intros Hz.
  assert (Hsame : isTheSameDay d1 d2 = true <-> shortenToDate d1 = shortenToDate d2).
  { unfold isTheSameDay. rewrite Z.eqb_eq. split.
    - apply DateFacts.shortenToDate_same_day.
    - intros H. rewrite <- (DateFacts.dayNumber_shortenToDate Hz d1), H.
      apply (DateFacts.dayNumber_shortenToDate Hz). }
  split; [exact Hsame |].
  split; [rewrite (DateFacts.isSameDay_spec Hz); reflexivity |].
  split; [apply Z.eqb_sym |].
  intros H. apply Hsame in H. rewrite H. unfold calcDiffInDays. rewrite Z.sub_diag. reflexivity.
Qed.

End Local.

(** X3.  [calcDiffInDays] cuts towards zero: swapping the dates changes the
    sign; the result is 0 exactly when the dates are less than a day apart;
    from an earlier to a later date it is the number of full days between
    them. *)
Theorem calcDiffInDays_truncates_towards_zero (d1 d2 : Z) :
  calcDiffInDays d2 d1 = - calcDiffInDays d1 d2
  /\ (calcDiffInDays d1 d2 = 0 <-> Z.abs (d2 - d1) < ONE_DAY_IN_MS)
  /\ (d1 <= d2 ->
      calcDiffInDays d1 d2 * ONE_DAY_IN_MS <= d2 - d1
      < (calcDiffInDays d1 d2 + 1) * ONE_DAY_IN_MS).
Proof.
  unfold calcDiffInDays, ONE_DAY_IN_MS.
  split.
  { replace (d1 - d2) with (- (d2 - d1)) by lia. apply Z.quot_opp_l. discriminate. }
  split.
  { rewrite Z.quot_small_iff by discriminate. simpl Z.abs. tauto. }
  intros H. rewrite Z.quot_div_nonneg by lia.
  Z.div_mod_to_equations. lia.
Qed.

Section InNewYork.

#[local] Existing Instance Fixtures.newYork2018.

(** The theorem in New York at noon of 11 March 2018, the day on which the
    clock is set forward. *)
Lemma shortenToDate_is_last_midnight_witness :
  shortenToDate (shortenToDate (JsDate.make 2018 2 11 + 39600000))
  = shortenToDate (JsDate.make 2018 2 11 + 39600000)
  /\ shortenToDate (JsDate.make 2018 2 11 + 39600000) <= JsDate.make 2018 2 11 + 39600000
     < JsDate.midnight (JsDate.dayNumber (JsDate.make 2018 2 11 + 39600000) + 1)
  /\ JsDate.localTime (shortenToDate (JsDate.make 2018 2 11 + 39600000))
     = JsDate.dayNumber (JsDate.make 2018 2 11 + 39600000) * ONE_DAY_IN_MS
  /\ (forall k, JsDate.midnight k <= JsDate.make 2018 2 11 + 39600000 ->
                JsDate.midnight k <= shortenToDate (JsDate.make 2018 2 11 + 39600000))
  /\ isTheSameDay (JsDate.make 2018 2 11 + 39600000)
       (shortenToDate (JsDate.make 2018 2 11 + 39600000)) = true.
Proof.
  exact (shortenToDate_is_last_midnight (JsDate.make 2018 2 11 + 39600000)
           ZoneFacts.newYork2018_regular).
Defined.

(** That day lasts 23 hours, and the day on which the clock is set back,
    4 November 2018, lasts 25; the midnight of the date shifted by one day
    is an hour before the midnight shifted by one day. *)
Lemma days_of_23_and_25_hours :
  JsDate.midnight 17602 - JsDate.midnight 17601 = 23 * 3600000
  /\ JsDate.midnight 17840 - JsDate.midnight 17839 = 25 * 3600000
  /\ shiftDays (shortenToDate (JsDate.make 2018 2 11 + 39600000)) 1
     - shortenToDate (shiftDays (JsDate.make 2018 2 11 + 39600000) 1) = 3600000.
Proof. repeat split. Qed.

(** The theorem in New York at 0:10 and 23:50 of 4 November 2018. *)
Lemma isTheSameDay_agrees_with_shortenToDate_witness :
  (isTheSameDay (JsDate.make 2018 10 4 + 600000) (JsDate.make 2018 10 5 - 600000) = true
   <-> shortenToDate (JsDate.make 2018 10 4 + 600000)
       = shortenToDate (JsDate.make 2018 10 5 - 600000))
  /\ isTheSameDay (JsDate.make 2018 10 4 + 600000) (JsDate.make 2018 10 5 - 600000)
     = Dayjs.isSameDay (Some (JsDate.make 2018 10 4 + 600000))
         (Some (JsDate.make 2018 10 5 - 600000))
  /\ isTheSameDay (JsDate.make 2018 10 4 + 600000) (JsDate.make 2018 10 5 - 600000)
     = isTheSameDay (JsDate.make 2018 10 5 - 600000) (JsDate.make 2018 10 4 + 600000)
  /\ (isTheSameDay (JsDate.make 2018 10 4 + 600000) (JsDate.make 2018 10 5 - 600000) = true ->
      calcDiffInDays (shortenToDate (JsDate.make 2018 10 4 + 600000))
        (shortenToDate (JsDate.make 2018 10 5 - 600000)) = 0).
Proof.
  exact (isTheSameDay_agrees_with_shortenToDate (JsDate.make 2018 10 4 + 600000)
           (JsDate.make 2018 10 5 - 600000) ZoneFacts.newYork2018_regular).
Defined.

(** Without the cut to midnight, dates of one day can be a day apart, and
    dates of two days none: on the day of 25 hours, 0:10 and 23:50 are 24
    hours and 40 minutes apart; 23:00 and 1:00 of the next day are two hours
    apart. *)
Lemma same_day_and_whole_days_differ :
  isTheSameDay (JsDate.make 2018 10 4 + 600000) (JsDate.make 2018 10 5 - 600000) = true
  /\ calcDiffInDays (JsDate.make 2018 10 4 + 600000) (JsDate.make 2018 10 5 - 600000) = 1
  /\ isTheSameDay (JsDate.make 2018 0 1 + 82800000) (JsDate.make 2018 0 2 + 3600000) = false
  /\ calcDiffInDays (JsDate.make 2018 0 1 + 82800000) (JsDate.make 2018 0 2 + 3600000) = 0.
Proof. repeat split. Qed.

End InNewYork.

End DayArithmeticFacts.

(** ** More on parseDue and parseDueDate *)

Module ExpressionFacts.

Import Js TimeUtils StringFacts.

Section Local.

Context {zone : JsDate.Zone}.

Lemma length_consHead (c : ascii) (l : list string) :
  l <> [] -> List.length (consHead c l) = List.length l.
Proof. destruct l; [congruence | reflexivity]. Qed.

Lemma splitDotDot_step (c c' : ascii) (s : string) :
  splitDotDot (String c (String c' s))
  = if Ascii.eqb c "." && Ascii.eqb c' "." then EmptyString :: splitDotDot s
    else consHead c (splitDotDot (String c' s)).
Proof. reflexivity. Qed.

(** [split('..')] gives more than one piece exactly for the strings that
    contain two full stops in a row. *)
Lemma splitDotDot_pieces (s : string) :
  (1 < List.length (splitDotDot s))%nat <-> exists a b, s = a ++ ".." ++ b.
Proof.
  split.
  - induction s as [| c s IH]; [simpl; lia |].
    destruct s as [| c' s'']; [simpl; lia |].
    rewrite splitDotDot_step.
    destruct (Ascii.eqb_spec c "."), (Ascii.eqb_spec c' "."); cbn [andb];
      try (subst; intros _; exists EmptyString, s''; reflexivity);
      rewrite length_consHead by apply splitDotDot_not_nil;
      intros H; destruct (IH H) as (a & b & E); exists (String c a), b;
      rewrite E; reflexivity.
  - intros (a & b & ->). induction a as [| c a IH].
    + cbn [append]. rewrite splitDotDot_step. cbn.
      pose proof (splitDotDot_not_nil b). destruct (splitDotDot b); [congruence | simpl; lia].
    + change (String c a ++ ".." ++ b) with (String c (a ++ ".." ++ b)).
      destruct (a ++ ".." ++ b) as [| c' s''] eqn:E.
      { destruct a; discriminate E. }
      rewrite splitDotDot_step.
      destruct (Ascii.eqb c "." && Ascii.eqb c' ".").
      * pose proof (splitDotDot_not_nil s''). destruct (splitDotDot s''); [congruence | simpl; lia].
      * rewrite length_consHead by apply splitDotDot_not_nil. exact IH.
Qed.

Lemma parseDueDate_range_flag (parse : string -> option Z) (now : Z) (due : string) :
  exists r,
    parseDueDate parse now due = Ok r
    /\ isRecurring r && isRange r = false
    /\ (isRange r = true <-> due <> "today" /\ (1 < List.length (splitDotDot due))%nat).
Proof.
  unfold parseDueDate.
  destruct (String.eqb_spec due "today") as [-> | Hne].
  { eexists. split; [reflexivity |]. split; [reflexivity |]. simpl. intuition congruence. }
  destruct (Nat.ltb_spec 1 (List.length (splitDotDot due))) as [Hlen | Hlen].
  { eexists. split; [reflexivity |]. split; [reflexivity |]. simpl. tauto. }
  assert (Hno : forall b s, isRecurring (mkDueReturn b false s) && isRange (mkDueReturn b false s) = false
                /\ (isRange (mkDueReturn b false s) = true
                    <-> due <> "today" /\ (1 < List.length (splitDotDot due))%nat)).
  { intros b s. simpl. rewrite andb_false_r. split; [reflexivity |].
    split; [discriminate | intros [_ H]; lia]. }
  destruct (dueWithDateRegexp_exec due) as [m |].
  - destruct (algorithmText m) as [dueAlgorithm |].
    + destruct (everyNDayRegexp_exec dueAlgorithm).
      * destruct (DueDateFacts.isDueWithDate_defined dueAlgorithm
                    (JsDate.make (Number (yearText m)) (Number (monthText m) - 1)
                       (Number (dateText m))) now) as [H | H];
          rewrite H; eexists; (split; [reflexivity | apply Hno]).
      * eexists; split; [reflexivity | apply Hno].
    + eexists; split; [reflexivity | apply Hno].
  - eexists; split; [reflexivity | apply Hno].
Qed.

(** X5.  A due date is never both recurring and a range.  It is a range
    exactly when the expression is not ["today"] and contains two full stops
    in a row, whatever stands around them. *)
Theorem range_and_recurring_exclude_each_other
  (dayjsParse : string -> option Z) (now : Z) (due : string) :
  exists r,
    parseDueDate dayjsParse now due = Ok r
    /\ isRecurring r && isRange r = false
    /\ (isRange r = true <-> due <> "today" /\ exists a b, due = a ++ ".." ++ b).
Proof.
  destruct (parseDueDate_range_flag dayjsParse now due) as (r & E & Hx & Hr).
  exists r. split; [exact E |]. split; [exact Hx |].
  rewrite <- splitDotDot_pieces. exact Hr.
Qed.

Lemma mapM_app {A B : Type} (f : A -> Result B) (l1 l2 : list A) (r1 r2 : list B) :
  mapM f l1 = Ok r1 -> mapM f l2 = Ok r2 -> mapM f (l1 ++ l2)%list = Ok (r1 ++ r2)%list.
Proof.
  revert r1. induction l1 as [| a l1 IH]; simpl; intros r1 H1 H2.
  - injection H1 as <-. exact H2.
  - destruct (f a) as [b | msg]; simpl in *; [| discriminate].
    destruct (mapM f l1) as [bs | msg]; simpl in *; [| discriminate].
    injection H1 as <-. rewrite (IH bs eq_refl H2). reflexivity.
Qed.

Lemma mapM_parseDueDate_returns (parse : string -> option Z) (now : Z) (l : list string) :
  exists rs, mapM (parseDueDate parse now) l = Ok rs.
Proof.
  induction l as [| d l [rs IH]]; simpl; [eexists; reflexivity |].
  destruct (DueDateFacts.parseDueDate_returns parse now d) as (r & E & _).
  rewrite E, IH. simpl. eexists. reflexivity.
Qed.

(** X6.  [parseDue] never throws, although [isDueWithDate], which it
    reaches, can: for every string it returns a list.  The list for two
    expressions joined by a comma is the list of the first followed by the
    list of the second. *)
Theorem parseDue_returns_and_joins
  (dayjsParse : string -> option Z) (now : Z) (a b : string) :
  exists ra rb,
    parseDue dayjsParse now a = Ok ra
    /\ parseDue dayjsParse now b = Ok rb
    /\ parseDue dayjsParse now (a ++ "," ++ b) = Ok (ra ++ rb)%list.
Proof.
  unfold parseDue.
  destruct (mapM_parseDueDate_returns dayjsParse now (dueDates a)) as [ra Ha].
  destruct (mapM_parseDueDate_returns dayjsParse now (dueDates b)) as [rb Hb].
  exists ra, rb. split; [exact Ha |]. split; [exact Hb |].
  change (a ++ "," ++ b) with (a ++ String "," b).
  rewrite dueDates_app_comma. apply mapM_app; assumption.
Qed.

Section ExactDate.

Variables yyyy mm dd rest : string.
Hypothesis Hy : String.length yyyy = 4%nat.
Hypothesis Hm : String.length mm = 2%nat.
Hypothesis Hd : String.length dd = 2%nat.
Hypothesis Dy : allDigits yyyy = true.
Hypothesis Dm : allDigits mm = true.
Hypothesis Dd : allDigits dd = true.

Lemma dueWithDateRegexp_exec_at_start :
  dueWithDateRegexp_exec (yyyy ++ "-" ++ mm ++ "-" ++ dd ++ rest)
  = Some (mkDateMatch yyyy mm dd (algorithmSuffix rest)).
Proof.
  destruct (IntervalFacts.length_four _ Hy) as (y1 & y2 & y3 & y4 & ->).
  destruct (IntervalFacts.length_two _ Hm) as (m1 & m2 & ->).
  destruct (IntervalFacts.length_two _ Hd) as (d1 & d2 & ->).
  cbn [allDigits] in Dy, Dm, Dd.
  repeat match goal with
         | H : _ && _ = true |- _ => apply andb_prop in H; destruct H
         end.
  unfold dueWithDateRegexp_exec. apply IntervalFacts.execFrom_here. cbn [append dueWithDateAt].
  repeat match goal with
         | H : isDigit _ = true |- _ => rewrite H; clear H
         end.
  reflexivity.
Qed.

Lemma exact_date_not_today :
  ((yyyy ++ "-" ++ mm ++ "-" ++ dd ++ rest) =? "today")%string = false.
Proof.
  apply String.eqb_neq. intros H.
  destruct (IntervalFacts.length_four _ Hy) as (y1 & y2 & y3 & y4 & ->).
  cbn [allDigits] in Dy. apply andb_prop in Dy. destruct Dy as [D1 _].
  cbn [append] in H. injection H as -> _. discriminate D1.
Qed.

Lemma exact_date_one_piece :
  allChars notDot rest = true ->
  splitDotDot (yyyy ++ "-" ++ mm ++ "-" ++ dd ++ rest)
  = [yyyy ++ "-" ++ mm ++ "-" ++ dd ++ rest].
Proof.
  intros Hr. apply splitDotDot_no_dot.
  rewrite !allChars_app, (IntervalFacts.digits_notDot _ Dy), (IntervalFacts.digits_notDot _ Dm),
    (IntervalFacts.digits_notDot _ Dd), Hr.
  reflexivity.
Qed.

End ExactDate.

Lemma exact_date_parse
  (parse : string -> option Z) (now : Z) (yyyy mm dd rest : string) :
  String.length yyyy = 4%nat -> String.length mm = 2%nat -> String.length dd = 2%nat ->
  allDigits yyyy = true -> allDigits mm = true -> allDigits dd = true ->
  allChars notDot rest = true -> algorithmSuffix rest = None ->
  parseDueDate parse now (yyyy ++ "-" ++ mm ++ "-" ++ dd ++ rest)
  = Ok (mkDueReturn false false
          (isDueExactDate now (JsDate.make (Number yyyy) (Number mm - 1) (Number dd)))).
Proof.
  intros Hy Hm Hd Dy Dm Dd Hr Hs. unfold parseDueDate.
  rewrite (exact_date_not_today yyyy mm dd rest Hy Dy).
  rewrite (exact_date_one_piece yyyy mm dd rest Dy Dm Dd Hr).
  cbn [List.length Nat.ltb Nat.leb].
  rewrite (dueWithDateRegexp_exec_at_start yyyy mm dd rest Hy Hm Hd Dy Dm Dd), Hs.
  reflexivity.
Qed.

Lemma isDueExactDate_cases (now k : Z) :
  JsDate.regular zone ->
  (isDueExactDate now (JsDate.midnight k) = NotDue <-> JsDate.dayNumber now < k)
  /\ (JsDate.dayNumber now = k -> isDueExactDate now (JsDate.midnight k) = Due)
  /\ (isDueExactDate now (JsDate.midnight k) = Due
      <-> k <= JsDate.dayNumber now
          /\ shortenToDate now - JsDate.midnight k < ONE_DAY_IN_MS)
  /\ (ONE_DAY_IN_MS <= JsDate.midnight (k + 1) - JsDate.midnight k ->
      (isDueExactDate now (JsDate.midnight k) = Due <-> JsDate.dayNumber now = k)
      /\ (isDueExactDate now (JsDate.midnight k) = Overdue <-> k < JsDate.dayNumber now)).
Proof.
  intros Hz.
  split.
  { rewrite (DateFacts.isDueExactDate_midnight Hz).
    destruct (Z.ltb_spec (JsDate.dayNumber now) k); [tauto |].
    destruct (_ <? _); split; (discriminate || lia). }
  split.
  { intros <-. rewrite (DateFacts.isDueExactDate_midnight Hz), Z.ltb_irrefl, Z.sub_diag.
    reflexivity. }
  split.
  { rewrite (DateFacts.isDueExactDate_midnight Hz), DateFacts.shortenToDate_day.
    change ONE_DAY_IN_MS with JsDate.msPerDay.
    destruct (Z.ltb_spec (JsDate.dayNumber now) k);
      [split; [discriminate | lia] |].
    destruct (Z.ltb_spec (JsDate.midnight (JsDate.dayNumber now) - JsDate.midnight k)
                JsDate.msPerDay); split; try discriminate; try tauto; lia. }
  intros Hfull. rewrite (DateFacts.isDueExactDate_full_day Hz now k Hfull).
  destruct (Z.ltb_spec (JsDate.dayNumber now) k), (Z.eqb_spec (JsDate.dayNumber now) k);
    repeat split; intros; try discriminate; try reflexivity; lia.
Qed.

(** X7.  In a regular zone an expression that starts with a date YYYY-MM-DD
    and goes on with anything that is no algorithm suffix (nothing at all,
    or text that does not start with a hyphen and a word character) is the
    exact date [new Date(YYYY, MM - 1, DD)], months and days past the
    calendar carried over.  It is not recurring; [NotDue] exactly on the
    days before the date; [Due] on the day of the date, and as long as the
    midnight of the current day is less than 24 hours after the date.  When
    the day of the date lasts at least 24 hours, it is [Due] on the day of
    the date only and [Overdue] on every later day. *)
Theorem exact_date_due_state
  (dayjsParse : string -> option Z) (now : Z) (yyyy mm dd rest : string) :
  JsDate.regular zone ->
  String.length yyyy = 4%nat -> String.length mm = 2%nat -> String.length dd = 2%nat ->
  allDigits yyyy = true -> allDigits mm = true -> allDigits dd = true ->
  allChars notDot rest = true -> algorithmSuffix rest = None ->
  let date := JsDate.make (Number yyyy) (Number mm - 1) (Number dd) in
  exists state,
    parseDueDate dayjsParse now (yyyy ++ "-" ++ mm ++ "-" ++ dd ++ rest)
    = Ok (mkDueReturn false false state)
    /\ (state = NotDue <-> JsDate.dayNumber now < JsDate.dayNumber date)
    /\ (JsDate.dayNumber now = JsDate.dayNumber date -> state = Due)
    /\ (state = Due
        <-> JsDate.dayNumber date <= JsDate.dayNumber now
            /\ shortenToDate now - date < ONE_DAY_IN_MS)
    /\ (ONE_DAY_IN_MS <= JsDate.midnight (JsDate.dayNumber date + 1) - date ->
        (state = Due <-> JsDate.dayNumber now = JsDate.dayNumber date)
        /\ (state = Overdue <-> JsDate.dayNumber date < JsDate.dayNumber now)).
Proof.
  intros Hz Hy Hm Hd Dy Dm Dd Hr Hs date.
  exists (isDueExactDate now date). split.
  - apply exact_date_parse; assumption.
  - destruct (DateFacts.make_is_midnight (Number yyyy) (Number mm - 1) (Number dd)) as [k Hk].
    unfold date. rewrite Hk, (DateFacts.dayNumber_midnight Hz).
    apply (isDueExactDate_cases now k Hz).
Qed.

Lemma execFrom_found {A : Type} (matchAt : string -> option A) (P : A -> Prop) :
  (forall s m, matchAt s = Some m -> P m) ->
  forall s m, execFrom matchAt s = Some m -> P m.
Proof.
  intros H s. induction s as [| c s IH]; simpl; intros m E.
  - destruct (matchAt "") eqn:E0; [injection E as <-; exact (H _ _ E0) | discriminate].
  - destruct (matchAt (String c s)) eqn:E0; [injection E as <-; exact (H _ _ E0) |].
    exact (IH m E).
Qed.

(** Capture 2 of the pattern of [isDueWithDate] is always ["d"]. *)
Lemma intervalPattern_unit (s : string) (capture1 : option string) (unit : string) :
  intervalPattern_exec s = Some (capture1, unit) -> unit = "d".
Proof.
  intros H.
  refine (execFrom_found intervalPatternAt (fun m => snd m = "d") _ s (capture1, unit) H).
  clear. intros s m. unfold intervalPatternAt.
  assert (Hu : forall r m, intervalAndUnitAt r = Some m -> snd m = "d").
  { intros r [c u]. unfold intervalAndUnitAt. destruct (span isDigit r) as [digits rest'].
    unfold unitAt. destruct rest' as [| x t]; [discriminate |].
    destruct (Ascii.eqb x "d"); [intros E; injection E as _ <-; reflexivity |].
    destruct (isSpace x && startsWithChar "d" t); [| discriminate].
    intros E; injection E as _ <-; reflexivity. }
  destruct (_ || _); [discriminate |].
  destruct s as [| c r]; [discriminate |].
  destruct (isSpace c); [| apply Hu].
  destruct (intervalAndUnitAt r) as [m' |] eqn:E; [| apply Hu].
  intros E'. injection E' as <-. exact (Hu _ _ E).
Qed.

(** X8.  With a start date, [isDueWithDate] goes by what its pattern finds
    in the expression.  Nothing found: never due.  A unit without a number
    in front: due on every day.  A number N in front of the unit: due
    exactly when N is not 0 and divides the quotient, cut towards zero, of
    the time between the two midnights by 24 hours; so with N = 0 it is
    never due, and with another N it is due at every time of the day of the
    start date.  The unit found is always [d], so the branch for months is
    never taken. *)
Theorem isDueWithDate_goes_by_its_pattern (dueDate : string) (start date : Z) :
  match intervalPattern_exec dueDate with
  | None => isDueWithDate dueDate (Some start) date = Ok NotDue
  | Some (None, unit) =>
      unit = "d" /\ isDueWithDate dueDate (Some start) date = Ok Due
  | Some (Some digits, unit) =>
      unit = "d"
      /\ (isDueWithDate dueDate (Some start) date = Ok Due
          <-> Number digits <> 0
              /\ (Number digits
                  | (shortenToDate date - shortenToDate start) ÷ ONE_DAY_IN_MS))
      /\ (isDueWithDate dueDate (Some start) date = Ok Due
          \/ isDueWithDate dueDate (Some start) date = Ok NotDue)
      /\ (Number digits <> 0 -> JsDate.dayNumber date = JsDate.dayNumber start ->
          isDueWithDate dueDate (Some start) date = Ok Due)
      /\ (Number digits = 0 -> isDueWithDate dueDate (Some start) date = Ok NotDue)
  end.
Proof.
  pose proof (DueDateFacts.isDueWithDate_defined dueDate start date) as Hdef.
  unfold isDueWithDate in *.
  destruct (intervalPattern_exec dueDate) as [[[digits |] unit] |] eqn:E; [| | reflexivity].
  - rewrite (intervalPattern_unit _ _ _ E) in *.
    cbn [isDayUnit String.eqb Ascii.eqb Bool.eqb andb orb] in *.
    split; [reflexivity |].
    split.
    { rewrite <- IntervalFacts.remIsZero_divide. unfold calcDiffInDays.
      destruct (remIsZero _ _); split; congruence. }
    split; [exact Hdef |].
    split.
    { intros Hn Hday. rewrite (DateFacts.shortenToDate_same_day _ _ Hday).
      unfold calcDiffInDays. rewrite Z.sub_diag. unfold remIsZero.
      destruct (Z.eqb_spec (Number digits) 0); [contradiction |].
      change (0 ÷ ONE_DAY_IN_MS) with 0. rewrite Z.rem_0_l by assumption. reflexivity. }
    intros ->. reflexivity.
  - rewrite (intervalPattern_unit _ _ _ E). cbn [isDayUnit String.eqb Ascii.eqb Bool.eqb andb orb].
    split; [reflexivity |].
    unfold remIsZero. cbn [Z.eqb]. rewrite Z.rem_1_r. reflexivity.
Qed.

End Local.

Section OnUtc.

#[local] Existing Instance Fixtures.utcZone.

(** The theorem on UTC at ["2020-07-35"] on 4 August 2020 and at
    ["2020-07-31|e14"] a day late. *)
Lemma exact_date_due_state_witness :
  (exists state,
     parseDueDate Fixtures.dayjsDateOnly (JsDate.make 2020 7 4) "2020-07-35"
     = Ok (mkDueReturn false false state)
     /\ (state = NotDue <-> 18478 < 18478)
     /\ (18478 = 18478 -> state = Due)
     /\ (state = Due <-> 18478 <= 18478 /\ 0 < ONE_DAY_IN_MS)
     /\ (ONE_DAY_IN_MS <= ONE_DAY_IN_MS ->
         (state = Due <-> 18478 = 18478) /\ (state = Overdue <-> 18478 < 18478)))
  /\ (exists state,
        parseDueDate Fixtures.dayjsDateOnly (JsDate.make 2020 7 1) "2020-07-31|e14"
        = Ok (mkDueReturn false false state)
        /\ (state = NotDue <-> 18475 < 18474)
        /\ (18475 = 18474 -> state = Due)
        /\ (state = Due <-> 18474 <= 18475 /\ ONE_DAY_IN_MS < ONE_DAY_IN_MS)
        /\ (ONE_DAY_IN_MS <= ONE_DAY_IN_MS ->
            (state = Due <-> 18475 = 18474) /\ (state = Overdue <-> 18474 < 18475))).
Proof.
  split.
  - exact (exact_date_due_state Fixtures.dayjsDateOnly (JsDate.make 2020 7 4)
             "2020" "07" "35" "" ZoneFacts.utcZone_regular
             eq_refl eq_refl eq_refl eq_refl eq_refl eq_refl eq_refl eq_refl).
  - exact (exact_date_due_state Fixtures.dayjsDateOnly (JsDate.make 2020 7 1)
             "2020" "07" "31" "|e14" ZoneFacts.utcZone_regular
             eq_refl eq_refl eq_refl eq_refl eq_refl eq_refl eq_refl eq_refl).
Defined.

End OnUtc.

Section InNewYork.

#[local] Existing Instance Fixtures.newYork2018.

(** In New York 11 March 2018 lasts 23 hours: on 12 March the date
    2018-03-11 is still due, and it is overdue from 13 March on. *)
Lemma exact_date_after_the_short_day (dayjsParse : string -> option Z) :
  parseDueDate dayjsParse (JsDate.make 2018 2 12 + 32400000) "2018-03-11"
  = Ok (mkDueReturn false false Due)
  /\ parseDueDate dayjsParse (JsDate.make 2018 2 13 + 32400000) "2018-03-11"
     = Ok (mkDueReturn false false Overdue)
  /\ parseDueDate dayjsParse (JsDate.make 2018 2 11 + 32400000) "2018-03-10"
     = Ok (mkDueReturn false false Overdue).
Proof. repeat split. Qed.

(** Across that day the expression for every third day does not come back
    after three days: from 1 March it is due on 10 March and not on
    13 March. *)
Lemma every_third_day_across_the_short_day :
  isDueWithDate "e3d" (Some (JsDate.make 2018 2 1)) (JsDate.make 2018 2 10 + 43200000) = Ok Due
  /\ isDueWithDate "e3d" (Some (JsDate.make 2018 2 1))
       (shiftDays (JsDate.make 2018 2 10 + 43200000) 3) = Ok NotDue.
Proof. split; reflexivity. Qed.

End InNewYork.

End ExpressionFacts.

(** ** More on the reset of recurring tasks *)

Module ResetMoreFacts.

Import DocumentActions.

Section Local.

Context {zone : JsDate.Zone}.



End Local.

Section InNewYork.

#[local] Existing Instance Fixtures.newYork2018.


End InNewYork.

Section Local.

Context {zone : JsDate.Zone}.

(** X10.  The reset leaves every task without a recurring due date alone:
    it gives the same edits for the recurring tasks only, and the edits of a
    list of tasks are the edits of its parts, one after the other.  The edits
    of a recurring task with a counter end with the reset of the counter to
    ["0"], whether the task is done, overdue or neither; a task without a
    counter gets no such edit. *)
Theorem reset_touches_recurring_tasks_only
  (dueDateIsDue : string -> Z -> DueState)
  (removeDoneSymbolEdit removeCompletionDateWorkspaceEdit : Z -> list Edit)
  (now lastVisit : Z) (tasks1 tasks2 : list TheTask) :
  let reset :=
    resetAllRecurringTasks dueDateIsDue removeDoneSymbolEdit
      removeCompletionDateWorkspaceEdit now lastVisit in
  let recurring :=
    fun t => match due t with Some d => dueIsRecurring d | None => false end in
  reset tasks1 = reset (filter recurring tasks1)
  /\ reset (tasks1 ++ tasks2)%list = (reset tasks1 ++ reset tasks2)%list
  /\ (forall t, recurring t = true ->
        exists before,
          reset [t]
          = (before ++ match count t with
                       | Some _ => [SetCountCurrentValue (lineNumber t) "0"]
                       | None => []
                       end)%list
          /\ (done t = true ->
              before = (removeDoneSymbolEdit (lineNumber t)
                        ++ removeCompletionDateWorkspaceEdit (lineNumber t))%list)
          /\ (done t = false ->
              before = [] \/ exists text, before = [InsertOverdueTag (lineNumber t) text])).
Proof.
  intros reset recurring. unfold reset, resetAllRecurringTasks.
  split.
  { induction tasks1 as [| t l IH]; [reflexivity |].
    cbn [flat_map filter]. unfold recurring at 1.
    destruct (due t) as [d |] eqn:Hd.
    - destruct (dueIsRecurring d) eqn:Hr.
      + cbn [flat_map]. rewrite IH. reflexivity.
      + rewrite IH. unfold resetTask. rewrite Hd, Hr. reflexivity.
    - rewrite IH. unfold resetTask. rewrite Hd. reflexivity. }
  split; [apply flat_map_app |].
  intros t Ht. cbn [flat_map]. rewrite app_nil_r. unfold resetTask. unfold recurring in Ht.
  destruct (due t) as [d |]; [| discriminate]. rewrite Ht.
  eexists. split; [reflexivity |].
  split.
  - intros ->. reflexivity.
  - intros ->. destruct (notOverdue t && negb (Dayjs.isSameDay (Some now) (Some lastVisit)));
      [| left; reflexivity].
    destruct (scanFrom _ _ _ _); [right; eexists; reflexivity | left; reflexivity].
Qed.

End Local.

End ResetMoreFacts.

(** ** More on the grouping for the tree views *)

Module GroupingMoreFacts.

Import TreeViews Grouped GroupingFacts.

(** *** Sorting *)

Lemma insertSorted_perm {A : Type} (cmp : A -> A -> Z) (x : A) (l : list A) :
  Permutation (insertSorted cmp x l) (x :: l).
Proof.
  induction l as [| y l IH]; simpl; [reflexivity |].
  destruct (0 <? cmp x y); [| reflexivity].
  rewrite IH. apply perm_swap.
Qed.

Lemma arraySort_perm {A : Type} (cmp : A -> A -> Z) (l : list A) :
  Permutation (arraySort cmp l) l.
Proof.
  induction l as [| x l IH]; simpl; [reflexivity |].
  unfold arraySort in *. cbn [fold_right]. rewrite insertSorted_perm, IH. reflexivity.
Qed.

Lemma insertSorted_byCount_sorted (x : ItemForProvider) (l : list ItemForProvider) :
  StronglySorted (fun a b => itemSize b <= itemSize a) l ->
  StronglySorted (fun a b => itemSize b <= itemSize a) (insertSorted byCount x l).
Proof.
  induction l as [| y l IH]; intros Hs; simpl.
  - constructor; constructor.
  - inversion Hs as [| ? ? Hl Hy]; subst.
    destruct (Z.ltb_spec 0 (byCount x y)) as [Hlt | Hge].
    + constructor; [exact (IH Hl) |].
      rewrite (insertSorted_perm byCount x l). constructor; [unfold byCount in Hlt; lia | exact Hy].
    + constructor; [exact Hs |].
      constructor; [unfold byCount in Hge; lia |].
      rewrite Forall_forall in *. intros z Hz. specialize (Hy z Hz). unfold byCount in Hge. lia.
Qed.

Lemma insertSorted_byCount_stable (n : Z) (x : ItemForProvider) (l : list ItemForProvider) :
  StronglySorted (fun a b => itemSize b <= itemSize a) l ->
  filter (fun i => itemSize i =? n) (insertSorted byCount x l)
  = filter (fun i => itemSize i =? n) (x :: l).
Proof.
  induction l as [| y l IH]; intros Hs; [reflexivity |].
  inversion Hs as [| ? ? Hl Hy]; subst. cbn [insertSorted].
  destruct (Z.ltb_spec 0 (byCount x y)) as [Hlt | Hge]; [| reflexivity].
  cbn [filter]. rewrite (IH Hl). cbn [filter]. unfold byCount in Hlt.
  destruct (Z.eqb_spec (itemSize y) n), (Z.eqb_spec (itemSize x) n); try reflexivity. lia.
Qed.

Lemma arraySort_byCount (n : Z) (l : list ItemForProvider) :
  StronglySorted (fun a b => itemSize b <= itemSize a) (arraySort byCount l)
  /\ filter (fun i => itemSize i =? n) (arraySort byCount l) = filter (fun i => itemSize i =? n) l.
Proof.
  induction l as [| x l [IHs IHf]]; [split; [constructor | reflexivity] |].
  unfold arraySort in *. cbn [fold_right]. split.
  - apply insertSorted_byCount_sorted, IHs.
  - rewrite (insertSorted_byCount_stable n x _ IHs). cbn [filter]. rewrite IHf. reflexivity.
Qed.

(** X11.  [sortItemsForProvider] keeps every group and adds none, with
    either sort type and whatever the comparison of the host does.  Sorted by
    count, the groups come with the larger ones first, and groups of the
    same itemSize keep the order they had. *)
Theorem sortItemsForProvider_sorts
  (localeCompare : string -> string -> Z) (items : list ItemForProvider)
  (sortType : TreeItemSortType) (n : nat) :
  Permutation (sortItemsForProvider localeCompare items sortType) items
  /\ StronglySorted (fun a b => (List.length (tasks b) <= List.length (tasks a))%nat)
       (sortItemsForProvider localeCompare items ByCount)
  /\ filter (fun i => (List.length (tasks i) =? n)%nat)
       (sortItemsForProvider localeCompare items ByCount)
     = filter (fun i => (List.length (tasks i) =? n)%nat) items.
Proof.
  split; [destruct sortType; apply arraySort_perm |].
  destruct (arraySort_byCount (Z.of_nat n) items) as [Hs Hf]. cbn [sortItemsForProvider].
  split.
  - eapply StronglySorted_ind with (P := fun l =>
      StronglySorted (fun a b => (List.length (tasks b) <= List.length (tasks a))%nat) l);
      [constructor | | exact Hs].
    intros a l _ IH Ha. constructor; [exact IH |].
    rewrite Forall_forall in *. intros z Hz. specialize (Ha z Hz). unfold itemSize in Ha. lia.
  - assert (He : forall i, (List.length (tasks i) =? n)%nat = (itemSize i =? Z.of_nat n)).
    { intros i. unfold itemSize.
      destruct (Nat.eqb_spec (List.length (tasks i)) n),
               (Z.eqb_spec (Z.of_nat (List.length (tasks i))) (Z.of_nat n));
        try reflexivity; lia. }
    rewrite !(filter_ext _ _ He). exact Hf.
Qed.

(** *** The maps *)

Lemma lookup_None_not_In (m : TempTitleLineNumberMap) (key : string) :
  lookup m key = None -> ~ In key (keysOf m).
Proof.
  induction m as [| [k v] m IH]; simpl; [tauto |].
  destruct (String.eqb_spec k key) as [-> | Hne]; [discriminate |].
  intros H [E | Hin]; [congruence | exact (IH H Hin)].
Qed.

Lemma lookup_In_pair (m : TempTitleLineNumberMap) (key : string) (v : list TheTask) :
  NoDup (keysOf m) -> In (key, v) m -> lookup m key = Some v.
Proof.
  induction m as [| [k w] m IH]; simpl; [tauto |].
  intros Hnd [E | Hin].
  - injection E as -> ->. rewrite String.eqb_refl. reflexivity.
  - inversion Hnd as [| ? ? Hk Hm]; subst.
    destruct (String.eqb_spec k key) as [-> | _]; [| exact (IH Hm Hin)].
    exfalso. apply Hk. unfold keysOf. apply in_map_iff. exists (key, v). auto.
Qed.

Lemma lookup_pushAt (m : TempTitleLineNumberMap) (key k' : string) (task : TheTask) :
  bucket (pushAt m key task) k'
  = (bucket m k' ++ (if (key =? k')%string then
                       match lookup m key with Some _ => [task] | None => [] end
                     else []))%list.
Proof.
  unfold bucket. induction m as [| [k v] m IH]; simpl.
  - destruct (key =? k')%string; reflexivity.
  - destruct (String.eqb_spec k key) as [-> | Hne]; simpl.
    + destruct (String.eqb_spec key k') as [-> | _]; [reflexivity | rewrite app_nil_r; reflexivity].
    + destruct (String.eqb_spec k k') as [-> | _]; [| exact IH].
      destruct (String.eqb_spec key k') as [-> | _]; [congruence | rewrite app_nil_r; reflexivity].
Qed.

Lemma lookup_app_single (m : TempTitleLineNumberMap) (key k' : string) (v : list TheTask) :
  lookup (m ++ [(key, v)])%list k'
  = match lookup m k' with
    | Some w => Some w
    | None => if (key =? k')%string then Some v else None
    end.
Proof.
  induction m as [| [k w] m IH]; simpl; [reflexivity |].
  destruct (k =? k')%string; [reflexivity | exact IH].
Qed.

Lemma bucket_addTo (m m' : TempTitleLineNumberMap) (key k' : string) (task : TheTask) :
  addTo m key task = Ok m' ->
  bucket m' k' = (bucket m k' ++ (if (key =? k')%string then [task] else []))%list.
Proof.
  unfold addTo. destruct (lookup m key) as [v |] eqn:E.
  - intros H. injection H as <-. rewrite lookup_pushAt, E. reflexivity.
  - destruct (existsb _ _); [discriminate |]. intros H. injection H as <-.
    unfold bucket. rewrite lookup_app_single.
    destruct (String.eqb_spec key k') as [<- | _].
    + rewrite E. reflexivity.
    + destruct (lookup m k'); [rewrite app_nil_r |]; reflexivity.
Qed.

Lemma bucket_addAll (keys : list string) (task : TheTask) (m m' : TempTitleLineNumberMap)
  (k' : string) :
  addAll m keys task = Ok m' ->
  bucket m' k' = (bucket m k' ++ repeat task (count_occ string_dec keys k'))%list.
Proof.
  revert m. induction keys as [| key keys IH]; simpl; intros m H.
  - injection H as <-. rewrite app_nil_r. reflexivity.
  - destruct (addTo m key task) as [m1 | msg] eqn:E; simpl in H; [| discriminate].
    rewrite (IH m1 H), (bucket_addTo m m1 key k' task E), <- app_assoc.
    destruct (string_dec key k') as [-> | Hne].
    + rewrite String.eqb_refl. reflexivity.
    + destruct (String.eqb_spec key k'); [contradiction | reflexivity].
Qed.

Lemma bucket_forEachTask (visited : list TheTask)
  (tagMap projectMap contextMap tagMap' projectMap' contextMap' : TempTitleLineNumberMap)
  (k : string) :
  forEachTask groupTask (tagMap, projectMap, contextMap) visited
  = Ok (tagMap', projectMap', contextMap') ->
  bucket tagMap' k = (bucket tagMap k ++ carriers tags k visited)%list
  /\ bucket projectMap' k = (bucket projectMap k ++ carriers projects k visited)%list
  /\ bucket contextMap' k = (bucket contextMap k ++ carriers contexts k visited)%list.
Proof.
  revert tagMap projectMap contextMap.
  induction visited as [| task rest IH]; simpl; intros tagMap projectMap contextMap H.
  - injection H as <- <- <-. rewrite !app_nil_r. auto.
  - destruct (addAll tagMap (tags task) task) as [tm | msg] eqn:Et; simpl in H; [| discriminate].
    destruct (addAll projectMap (projects task) task) as [pm | msg] eqn:Ep; simpl in H;
      [| discriminate].
    destruct (addAll contextMap (contexts task) task) as [cm | msg] eqn:Ec; simpl in H;
      [| discriminate].
    destruct (IH tm pm cm H) as (Ht & Hp & Hc).
    rewrite Ht, Hp, Hc, (bucket_addAll _ _ _ _ k Et), (bucket_addAll _ _ _ _ k Ep),
      (bucket_addAll _ _ _ _ k Ec), <- !app_assoc.
    auto.
Qed.

(** Names are created once. *)
Lemma NoDup_addTo (m m' : TempTitleLineNumberMap) (key : string) (task : TheTask) :
  addTo m key task = Ok m' -> NoDup (keysOf m) -> NoDup (keysOf m').
Proof.
  unfold addTo. destruct (lookup m key) as [v |] eqn:E.
  - intros H. injection H as <-. rewrite keysOf_pushAt. tauto.
  - destruct (existsb _ _); [discriminate |]. intros H Hnd. injection H as <-.
    unfold keysOf. rewrite map_app. simpl.
    apply NoDup_app; [exact Hnd | repeat constructor; simpl; tauto |].
    intros k Hk [Ek | []]. subst k. exact (lookup_None_not_In m key E Hk).
Qed.

Lemma NoDup_addAll (keys : list string) (task : TheTask) (m m' : TempTitleLineNumberMap) :
  addAll m keys task = Ok m' -> NoDup (keysOf m) -> NoDup (keysOf m').
Proof.
  revert m. induction keys as [| key keys IH]; simpl; intros m H Hnd.
  - injection H as <-. exact Hnd.
  - destruct (addTo m key task) as [m1 | msg] eqn:E; simpl in H; [| discriminate].
    exact (IH m1 H (NoDup_addTo _ _ _ _ E Hnd)).
Qed.

Lemma NoDup_forEachTask (visited : list TheTask)
  (tagMap projectMap contextMap tagMap' projectMap' contextMap' : TempTitleLineNumberMap) :
  forEachTask groupTask (tagMap, projectMap, contextMap) visited
  = Ok (tagMap', projectMap', contextMap') ->
  NoDup (keysOf tagMap) /\ NoDup (keysOf projectMap) /\ NoDup (keysOf contextMap) ->
  NoDup (keysOf tagMap') /\ NoDup (keysOf projectMap') /\ NoDup (keysOf contextMap').
Proof.
  revert tagMap projectMap contextMap.
  induction visited as [| task rest IH]; simpl; intros tagMap projectMap contextMap H Hnd.
  - injection H as <- <- <-. exact Hnd.
  - destruct (addAll tagMap (tags task) task) as [tm | msg] eqn:Et; simpl in H; [| discriminate].
    destruct (addAll projectMap (projects task) task) as [pm | msg] eqn:Ep; simpl in H;
      [| discriminate].
    destruct (addAll contextMap (contexts task) task) as [cm | msg] eqn:Ec; simpl in H;
      [| discriminate].
    destruct Hnd as (Ht & Hp & Hc).
    apply (IH tm pm cm H). repeat split; eapply NoDup_addAll; eassumption.
Qed.

Lemma insertIndexKey_perm (e : string * list TheTask) (l : TempTitleLineNumberMap) :
  Permutation (insertIndexKey e l) (e :: l).
Proof.
  induction l as [| y l IH]; simpl; [reflexivity |].
  destruct (_ <=? _); [reflexivity |]. rewrite IH. apply perm_swap.
Qed.

Lemma filter_partition_perm {A : Type} (p : A -> bool) (l : list A) :
  Permutation (filter p l ++ filter (fun x => negb (p x)) l) l.
Proof.
  induction l as [| x l IH]; simpl; [reflexivity |].
  destruct (p x); simpl.
  - constructor. exact IH.
  - rewrite <- Permutation_middle. constructor. exact IH.
Qed.

(** The enumeration is a rearrangement of the entries. *)
Lemma ownEntries_perm (m : TempTitleLineNumberMap) : Permutation (ownEntries m) m.
Proof.
  unfold ownEntries.
  rewrite <- (filter_partition_perm (fun e => isArrayIndex (fst e)) m) at 3.
  apply Permutation_app_tail.
  induction (filter (fun e => isArrayIndex (fst e)) m) as [| x l IH]; simpl; [reflexivity |].
  rewrite insertIndexKey_perm, IH. reflexivity.
Qed.

Lemma In_itemsOf (m : TempTitleLineNumberMap) (item : ItemForProvider) :
  In item (itemsOf m) -> In (title item, tasks item) m.
Proof.
  unfold itemsOf. rewrite in_map_iff. intros ([k v] & <- & H). simpl.
  apply In_ownEntries. exact H.
Qed.

Lemma In_sortItemsForProvider (localeCompare : string -> string -> Z)
  (items : list ItemForProvider) (sortType : TreeItemSortType) (item : ItemForProvider) :
  In item (sortItemsForProvider localeCompare items sortType) -> In item items.
Proof.
  apply Permutation_in. destruct sortType; apply arraySort_perm.
Qed.

Lemma grouping_maps (localeCompare : string -> string -> Z)
  (sortTagsView sortProjectsView sortContextsView : TreeItemSortType)
  (stateTasks tasks0 : list TheTask) (items : ParsedItems) :
  groupAndSortTreeItems localeCompare sortTagsView sortProjectsView sortContextsView
    stateTasks tasks0 = Ok items ->
  exists tagMap projectMap contextMap,
    forEachTask groupTask ([], [], []) stateTasks = Ok (tagMap, projectMap, contextMap)
    /\ items = mkParsedItems (objectKeys tagMap) (objectKeys contextMap) (objectKeys projectMap)
                 (sortItemsForProvider localeCompare (itemsOf tagMap) sortTagsView)
                 (sortItemsForProvider localeCompare (itemsOf projectMap) sortProjectsView)
                 (sortItemsForProvider localeCompare (itemsOf contextMap) sortContextsView).
Proof.
  unfold groupAndSortTreeItems.
  destruct (forEachTask groupTask ([], [], []) stateTasks) as [[[tm pm] cm] | msg];
    simpl; [| discriminate].
  intros H. injection H as <-. exists tm, pm, cm. split; reflexivity.
Qed.

(** X12.  In the result of [groupAndSortTreeItems] the group of a name holds
    exactly the tasks of the state that carry the name, in the order
    [forEachTask] walks them, each as often as it carries the name; so no
    group is empty.  This holds for tags, projects and contexts alike. *)
Theorem groups_hold_the_carriers_in_visit_order
  (localeCompare : string -> string -> Z)
  (sortTagsView sortProjectsView sortContextsView : TreeItemSortType)
  (stateTasks tasks0 : list TheTask) (items : ParsedItems) :
  groupAndSortTreeItems localeCompare sortTagsView sortProjectsView sortContextsView
    stateTasks tasks0 = Ok items ->
  (forall item, In item (tagsForProvider items) ->
     tasks item = carriers tags (title item) stateTasks /\ tasks item <> [])
  /\ (forall item, In item (projectsForProvider items) ->
        tasks item = carriers projects (title item) stateTasks /\ tasks item <> [])
  /\ (forall item, In item (contextsForProvider items) ->
        tasks item = carriers contexts (title item) stateTasks /\ tasks item <> []).
Proof.
  intros H. destruct (grouping_maps _ _ _ _ _ _ _ H) as (tm & pm & cm & E & ->).
  destruct (NoDup_forEachTask stateTasks [] [] [] tm pm cm E) as (Nt & Np & Nc);
    [repeat split; constructor |].
  assert (Hgen : forall (field : TheTask -> list string) (m : TempTitleLineNumberMap)
                   (sortType : TreeItemSortType),
             NoDup (keysOf m) ->
             (forall k, bucket m k = carriers field k stateTasks) ->
             (forall k, In k (keysOf m) -> exists t, In t stateTasks /\ In k (field t)) ->
             forall item, In item (sortItemsForProvider localeCompare (itemsOf m) sortType) ->
               tasks item = carriers field (title item) stateTasks /\ tasks item <> []).
  { intros field m sortType Hnd Hb Hk item Hin.
    apply In_sortItemsForProvider, In_itemsOf in Hin.
    pose proof (lookup_In_pair m _ _ Hnd Hin) as Hl.
    assert (Ht : tasks item = carriers field (title item) stateTasks).
    { rewrite <- Hb. unfold bucket. rewrite Hl. reflexivity. }
    split; [exact Ht |]. rewrite Ht.
    destruct (Hk (title item) (lookup_In _ _ _ Hl)) as (t & Hts & Hkt).
    unfold carriers. intros Hnil.
    assert (Hx : In t (flat_map
                       (fun t0 => repeat t0 (count_occ string_dec (field t0) (title item)))
                       stateTasks)).
    { apply in_flat_map. exists t. split; [exact Hts |].
      apply (count_occ_In string_dec) in Hkt.
      destruct (count_occ string_dec (field t) (title item)); [lia | left; reflexivity]. }
    rewrite Hnil in Hx. exact Hx. }
  cbn [tagsForProvider projectsForProvider contextsForProvider].
  split; [| split]; intros item Hin.
  - apply (Hgen tags tm sortTagsView Nt); [| | exact Hin].
    + intros k. destruct (bucket_forEachTask stateTasks [] [] [] tm pm cm k E) as (Hb & _ & _).
      exact Hb.
    + intros k Hk. destruct (keysOf_forEachTask stateTasks [] [] [] tm pm cm E k) as (Hi & _ & _).
      apply Hi in Hk. destruct Hk as [[] | Hk]. exact Hk.
  - apply (Hgen projects pm sortProjectsView Np); [| | exact Hin].
    + intros k. destruct (bucket_forEachTask stateTasks [] [] [] tm pm cm k E) as (_ & Hb & _).
      exact Hb.
    + intros k Hk. destruct (keysOf_forEachTask stateTasks [] [] [] tm pm cm E k) as (_ & Hi & _).
      apply Hi in Hk. destruct Hk as [[] | Hk]. exact Hk.
  - apply (Hgen contexts cm sortContextsView Nc); [| | exact Hin].
    + intros k. destruct (bucket_forEachTask stateTasks [] [] [] tm pm cm k E) as (_ & _ & Hb).
      exact Hb.
    + intros k Hk. destruct (keysOf_forEachTask stateTasks [] [] [] tm pm cm E k) as (_ & _ & Hi).
      apply Hi in Hk. destruct Hk as [[] | Hk]. exact Hk.
Qed.

(** The theorem for two tasks that share the tag [b]. *)
Lemma groups_hold_the_carriers_witness :
  (forall item,
     In item [mkItem "b" [mkTheTask 0 ["b"; "a"] [] [] false None None None;
                          mkTheTask 1 ["b"] ["p"] [] false None None None];
              mkItem "a" [mkTheTask 0 ["b"; "a"] [] [] false None None None]] ->
     tasks item
     = carriers tags (title item)
         [mkTheTask 0 ["b"; "a"] [] [] false None None None;
          mkTheTask 1 ["b"] ["p"] [] false None None None]
     /\ tasks item <> [])
  /\ (forall item,
        In item [mkItem "p" [mkTheTask 1 ["b"] ["p"] [] false None None None]] ->
        tasks item
        = carriers projects (title item)
            [mkTheTask 0 ["b"; "a"] [] [] false None None None;
             mkTheTask 1 ["b"] ["p"] [] false None None None]
        /\ tasks item <> [])
  /\ (forall item,
        In item [] ->
        tasks item
        = carriers contexts (title item)
            [mkTheTask 0 ["b"; "a"] [] [] false None None None;
             mkTheTask 1 ["b"] ["p"] [] false None None None]
        /\ tasks item <> []).
Proof.
  exact (groups_hold_the_carriers_in_visit_order (fun _ _ => 0) ByCount ByCount ByCount
           [mkTheTask 0 ["b"; "a"] [] [] false None None None;
            mkTheTask 1 ["b"] ["p"] [] false None None None] [] _ eq_refl).
Defined.

(** X13.  Every name is listed once in [tags], [projects] and [contexts],
    however many tasks carry it, and the groups for the views are one per
    listed name: their titles are the listed names, rearranged by the
    sort. *)
Theorem names_are_listed_once
  (localeCompare : string -> string -> Z)
  (sortTagsView sortProjectsView sortContextsView : TreeItemSortType)
  (stateTasks tasks0 : list TheTask) (items : ParsedItems) :
  groupAndSortTreeItems localeCompare sortTagsView sortProjectsView sortContextsView
    stateTasks tasks0 = Ok items ->
  NoDup (tagsList items) /\ NoDup (projectsList items) /\ NoDup (contextsList items)
  /\ Permutation (map title (tagsForProvider items)) (tagsList items)
  /\ Permutation (map title (projectsForProvider items)) (projectsList items)
  /\ Permutation (map title (contextsForProvider items)) (contextsList items).
Proof.
  intros H. destruct (grouping_maps _ _ _ _ _ _ _ H) as (tm & pm & cm & E & ->).
  destruct (NoDup_forEachTask stateTasks [] [] [] tm pm cm E) as (Nt & Np & Nc);
    [repeat split; constructor |].
  cbn [tagsList projectsList contextsList tagsForProvider projectsForProvider
         contextsForProvider].
  assert (Hk : forall m, NoDup (keysOf m) -> NoDup (objectKeys m)).
  { intros m Hm. unfold objectKeys.
    apply (Permutation_NoDup (l := keysOf m)); [| exact Hm].
    unfold keysOf. apply Permutation_map. symmetry. apply ownEntries_perm. }
  assert (Ht : forall m sortType,
             Permutation (map title (sortItemsForProvider localeCompare (itemsOf m) sortType))
               (objectKeys m)).
  { intros m sortType.
    transitivity (map title (itemsOf m)).
    - apply Permutation_map. destruct sortType; apply arraySort_perm.
    - unfold itemsOf, objectKeys. rewrite map_map. reflexivity. }
  repeat split; auto.
Qed.

(** The theorem for two tasks that share the tag [b]. *)
Lemma names_are_listed_once_witness :
  NoDup ["b"; "a"] /\ NoDup ["p"] /\ NoDup (@nil string)
  /\ Permutation ["b"; "a"] ["b"; "a"]
  /\ Permutation ["p"] ["p"]
  /\ Permutation (@nil string) [].
Proof.
  exact (names_are_listed_once (fun _ _ => 0) ByCount ByCount ByCount
           [mkTheTask 0 ["b"; "a"] [] [] false None None None;
            mkTheTask 1 ["b"] ["p"] [] false None None None] [] _ eq_refl).
Defined.

(** *** Names that an object inherits *)

Lemma addTo_result (m : TempTitleLineNumberMap) (key : string) (task : TheTask) :
  Forall (fun k => existsb (String.eqb k) inheritedKeys = false) (keysOf m) ->
  (existsb (String.eqb key) inheritedKeys = true
   /\ addTo m key task = Throw "TypeError: push is not a function")
  \/ (existsb (String.eqb key) inheritedKeys = false
      /\ exists m', addTo m key task = Ok m'
                    /\ Forall (fun k => existsb (String.eqb k) inheritedKeys = false) (keysOf m')).
Proof.
  intros Hinv. unfold addTo. destruct (lookup m key) as [v |] eqn:E.
  - right. rewrite Forall_forall in Hinv. split; [exact (Hinv _ (lookup_In _ _ _ E)) |].
    eexists. split; [reflexivity |]. rewrite keysOf_pushAt. apply Forall_forall. exact Hinv.
  - destruct (existsb (String.eqb key) inheritedKeys) eqn:Hk; [left; auto | right].
    split; [reflexivity |]. eexists. split; [reflexivity |].
    unfold keysOf. rewrite map_app. apply Forall_app. split; [exact Hinv |].
    repeat constructor. exact Hk.
Qed.

Lemma addAll_result (keys : list string) (task : TheTask) (m : TempTitleLineNumberMap) :
  Forall (fun k => existsb (String.eqb k) inheritedKeys = false) (keysOf m) ->
  (existsb (fun key => existsb (String.eqb key) inheritedKeys) keys = true
   /\ addAll m keys task = Throw "TypeError: push is not a function")
  \/ (existsb (fun key => existsb (String.eqb key) inheritedKeys) keys = false
      /\ exists m', addAll m keys task = Ok m'
                    /\ Forall (fun k => existsb (String.eqb k) inheritedKeys = false) (keysOf m')).
Proof.
  revert m. induction keys as [| key keys IH]; intros m Hinv; cbn [existsb addAll].
  - right. split; [reflexivity |]. exists m. auto.
  - destruct (addTo_result m key task Hinv) as [[Hk E] | [Hk (m1 & E & Hinv1)]]; rewrite Hk, E.
    + left. auto.
    + cbn [orb bind]. exact (IH m1 Hinv1).
Qed.

Lemma forEachTask_result (visited : list TheTask)
  (tagMap projectMap contextMap : TempTitleLineNumberMap) :
  Forall (fun k => existsb (String.eqb k) inheritedKeys = false) (keysOf tagMap) ->
  Forall (fun k => existsb (String.eqb k) inheritedKeys = false) (keysOf projectMap) ->
  Forall (fun k => existsb (String.eqb k) inheritedKeys = false) (keysOf contextMap) ->
  (existsb (fun t => existsb (fun key => existsb (String.eqb key) inheritedKeys)
                       (tags t ++ projects t ++ contexts t)%list) visited = true
   /\ forEachTask groupTask (tagMap, projectMap, contextMap) visited
      = Throw "TypeError: push is not a function")
  \/ (existsb (fun t => existsb (fun key => existsb (String.eqb key) inheritedKeys)
                          (tags t ++ projects t ++ contexts t)%list) visited = false
      /\ exists maps, forEachTask groupTask (tagMap, projectMap, contextMap) visited = Ok maps).
Proof.
  revert tagMap projectMap contextMap.
  induction visited as [| task rest IH]; intros tagMap projectMap contextMap Ht Hp Hc;
    cbn [existsb forEachTask].
  - right. split; [reflexivity |]. eexists. reflexivity.
  - rewrite !existsb_app. unfold groupTask.
    destruct (addAll_result (tags task) task tagMap Ht) as [[Hk E] | [Hk (tm & E & Ht1)]];
      rewrite Hk, E; [left; auto |].
    destruct (addAll_result (projects task) task projectMap Hp) as [[Hk2 E2] | [Hk2 (pm & E2 & Hp1)]];
      cbn [bind]; rewrite Hk2, E2; [left; auto |].
    destruct (addAll_result (contexts task) task contextMap Hc) as [[Hk3 E3] | [Hk3 (cm & E3 & Hc1)]];
      cbn [bind]; rewrite Hk3, E3; [left; auto |].
    cbn [bind orb]. exact (IH tm pm cm Ht1 Hp1 Hc1).
Qed.

(** X14.  [groupAndSortTreeItems] throws exactly when a task of the state
    carries, as tag, project or context, a name that an empty object
    inherits from [Object.prototype] ([constructor], [toString], ...): the
    map then holds no array under that name.  In every other case it
    returns. *)
Theorem grouping_throws_on_inherited_names
  (localeCompare : string -> string -> Z)
  (sortTagsView sortProjectsView sortContextsView : TreeItemSortType)
  (stateTasks tasks0 : list TheTask) :
  ((exists message,
      groupAndSortTreeItems localeCompare sortTagsView sortProjectsView sortContextsView
        stateTasks tasks0 = Throw message)
   <-> exists t key, In t stateTasks
                     /\ In key (tags t ++ projects t ++ contexts t)%list
                     /\ In key inheritedKeys)
  /\ ((exists items,
         groupAndSortTreeItems localeCompare sortTagsView sortProjectsView sortContextsView
           stateTasks tasks0 = Ok items)
      <-> forall t key, In t stateTasks ->
                        In key (tags t ++ projects t ++ contexts t)%list ->
                        ~ In key inheritedKeys).
Proof.
  assert (Hex : existsb (fun t => existsb (fun key => existsb (String.eqb key) inheritedKeys)
                                    (tags t ++ projects t ++ contexts t)%list) stateTasks = true
                <-> exists t key, In t stateTasks
                                  /\ In key (tags t ++ projects t ++ contexts t)%list
                                  /\ In key inheritedKeys).
  { rewrite existsb_exists. split.
    - intros (t & Ht & H). apply existsb_exists in H. destruct H as (key & Hk & H).
      apply existsb_exists in H. destruct H as (k' & Hk' & H).
      apply String.eqb_eq in H. subst k'. exists t, key. auto.
    - intros (t & key & Ht & Hk & Hi). exists t. split; [exact Ht |].
      apply existsb_exists. exists key. split; [exact Hk |].
      apply existsb_exists. exists key. split; [exact Hi | apply String.eqb_refl]. }
  unfold groupAndSortTreeItems.
  destruct (forEachTask_result stateTasks [] [] [] (Forall_nil _) (Forall_nil _) (Forall_nil _))
    as [[Hk E] | [Hk ([[tm pm] cm] & E)]].
  all: match goal with
       | |- context [bind ?x _] => let E' := fresh "E" in pose proof (E : x = _) as E'; rewrite E'
       end; cbn [bind].
  - split.
    + split; [intros _; apply Hex; exact Hk | intros _; eexists; reflexivity].
    + split; [intros [items H]; discriminate H |].
      intros Hno. exfalso. apply Hex in Hk. destruct Hk as (t & key & Ht & Hkey & Hi).
      exact (Hno t key Ht Hkey Hi).
  - split.
    + split; [intros [message H]; discriminate H |].
      intros H. apply Hex in H. congruence.
    + split; [| intros _; eexists; reflexivity].
      intros _ t key Ht Hkey Hi.
      assert (Hc : existsb (fun t => existsb (fun key => existsb (String.eqb key) inheritedKeys)
                                       (tags t ++ projects t ++ contexts t)%list) stateTasks = true)
        by (apply Hex; exists t, key; auto).
      congruence.
Qed.

End GroupingMoreFacts.

(** ** Edits of single lines *)

Module EditFacts.

Import Js StringFacts IsoFormat VsCode DocumentEdits.

Lemma take_app_length (a b : string) : take (String.length a) (a ++ b) = a.
Proof. induction a as [| c a IH]; simpl; [destruct b | rewrite IH]; reflexivity. Qed.

Lemma drop_app_length (a b : string) : drop (String.length a) (a ++ b) = b.
Proof. induction a as [| c a IH]; simpl; [destruct b; reflexivity | exact IH]. Qed.

Lemma take_length (a : string) : take (String.length a) a = a.
Proof. induction a as [| c a IH]; simpl; [| rewrite IH]; reflexivity. Qed.

Lemma drop_length (a : string) : drop (String.length a) a = EmptyString.
Proof. induction a as [| c a IH]; simpl; [reflexivity | exact IH]. Qed.

Lemma length_append (a b : string) :
  String.length (a ++ b) = (String.length a + String.length b)%nat.
Proof. induction a as [| c a IH]; simpl; [| rewrite IH]; reflexivity. Qed.

Lemma prefix_app (a s : string) : prefix a s = true -> exists r, s = a ++ r.
Proof.
  revert s. induction a as [| c a IH]; intros s H; [exists s; reflexivity |].
  destruct s as [| x s]; [discriminate |]. simpl in H.
  destruct (ascii_dec c x) as [<- |]; [| discriminate].
  destruct (IH s H) as [r ->]. exists r. reflexivity.
Qed.

Lemma prefix_of_app (a r : string) : prefix a (a ++ r) = true.
Proof.
  induction a as [| c a IH]; simpl; [destruct r; reflexivity |].
  destruct (ascii_dec c c); [exact IH | congruence].
Qed.

Lemma span_parts (p : ascii -> bool) (s : string) :
  s = fst (span p s) ++ snd (span p s) /\ allChars p (fst (span p s)) = true.
Proof.
  induction s as [| c s [IH1 IH2]]; simpl; [auto |].
  destruct (p c) eqn:E; [| auto].
  destruct (span p s) as [run rest]. simpl in *. rewrite E, IH2, <- IH1. auto.
Qed.

Lemma trimEnd_is_prefix (s : string) : exists tail, s = trimEnd s ++ tail.
Proof.
  induction s as [| c s [tail IH]]; [exists EmptyString; reflexivity |].
  simpl. destruct (trimEnd s) as [| x t] eqn:E.
  - destruct (isSpace c); [exists (String c s); reflexivity |].
    exists s. reflexivity.
  - exists tail. rewrite IH at 1. reflexivity.
Qed.

(** X15.  [toggleCommentAtLineWorkspaceEdit] makes one edit.  On a line that
    does not start with ["# "] it puts ["# "] in front.  Toggling twice gives
    the line back, unless the line starts with ["# # "]: then both toggles
    remove a marker. *)
Theorem toggle_comment_twice (n : Z) (lineText : string) :
  prefix "# # " lineText = false ->
  exists e1 e2,
    toggleCommentAtLineWorkspaceEdit (mkTextLine n lineText) = [e1]
    /\ toggleCommentAtLineWorkspaceEdit (mkTextLine n (editLine e1 lineText)) = [e2]
    /\ editLine e2 (editLine e1 lineText) = lineText
    /\ (prefix "# " lineText = false -> editLine e1 lineText = "# " ++ lineText).
Proof.
  intros H. unfold toggleCommentAtLineWorkspaceEdit. cbn [text lineNumber].
  destruct (prefix "# " lineText) eqn:E.
  - destruct (prefix_app _ _ E) as [r ->].
    assert (Hr : prefix "# " r = false).
    { destruct (prefix "# " r) eqn:Er; [| reflexivity].
      destruct (prefix_app _ _ Er) as [r' ->]. destruct r'; simpl in H; discriminate H. }
    eexists. eexists. split; [reflexivity |].
    cbn [editLine character start end_]. change (take 2 ("# " ++ r)) with "# ".
    change (drop 2 ("# " ++ r)) with r. cbn [take append]. rewrite Hr.
    split; [reflexivity |]. split; [| discriminate].
    cbn [editLine character]. destruct r; reflexivity.
  - eexists. eexists. split; [reflexivity |].
    cbn [editLine character take drop]. change ("" ++ "# " ++ lineText) with ("# " ++ lineText).
    rewrite prefix_of_app. split; [reflexivity |]. split; [| reflexivity].
    cbn [editLine character start end_]. reflexivity.
Qed.

(** The theorem on a task line and on a comment. *)
Lemma toggle_comment_twice_witness :
  (exists e1 e2,
     toggleCommentAtLineWorkspaceEdit (mkTextLine 3 "buy milk") = [e1]
     /\ toggleCommentAtLineWorkspaceEdit (mkTextLine 3 (editLine e1 "buy milk")) = [e2]
     /\ editLine e2 (editLine e1 "buy milk") = "buy milk"
     /\ (prefix "# " "buy milk" = false -> editLine e1 "buy milk" = "# " ++ "buy milk"))
  /\ (exists e1 e2,
        toggleCommentAtLineWorkspaceEdit (mkTextLine 3 "# note") = [e1]
        /\ toggleCommentAtLineWorkspaceEdit (mkTextLine 3 (editLine e1 "# note")) = [e2]
        /\ editLine e2 (editLine e1 "# note") = "# note"
        /\ (prefix "# " "# note" = false -> editLine e1 "# note" = "# " ++ "# note")).
Proof.
  split.
  - apply (toggle_comment_twice 3 "buy milk"). reflexivity.
  - apply (toggle_comment_twice 3 "# note"). reflexivity.
Defined.

(** A line that starts with two markers loses both. *)
Lemma toggle_comment_twice_on_two_markers :
  toggleCommentAtLineWorkspaceEdit (mkTextLine 0 "# # x")
  = [Delete (mkRange (mkPosition 0 0) (mkPosition 0 2))]
  /\ toggleCommentAtLineWorkspaceEdit (mkTextLine 0 "# x")
     = [Delete (mkRange (mkPosition 0 0) (mkPosition 0 2))]
  /\ editLine (Delete (mkRange (mkPosition 0 0) (mkPosition 0 2)))
       (editLine (Delete (mkRange (mkPosition 0 0) (mkPosition 0 2))) "# # x") = "x".
Proof. repeat split. Qed.

(** X16.  When [removeDoneSymbolEdit] makes an edit, the line is some white
    space, the done symbol and a rest, and the edit leaves the white space
    and the rest: it removes the symbol and nothing else. *)
Theorem removeDoneSymbolEdit_removes_the_symbol
  (doneSymbol : string) (n : Z) (lineText : string) :
  Forall (fun e =>
            exists indent rest,
              lineText = indent ++ doneSymbol ++ rest
              /\ allChars isSpace indent = true
              /\ editLine e lineText = indent ++ rest)
    (removeDoneSymbolEdit doneSymbol (mkTextLine n lineText)).
Proof.
  unfold removeDoneSymbolEdit, trim, firstNonWhitespaceCharacterIndex. cbn [text lineNumber].
  destruct (prefix doneSymbol (trimEnd (snd (span isSpace lineText)))) eqn:E; [| constructor].
  repeat constructor.
  destruct (span_parts isSpace lineText) as [Hs Hi].
  destruct (prefix_app _ _ E) as [r0 Hr0].
  destruct (trimEnd_is_prefix (snd (span isSpace lineText))) as [tail Ht].
  exists (fst (span isSpace lineText)), (r0 ++ tail).
  assert (Hl : lineText = fst (span isSpace lineText) ++ doneSymbol ++ r0 ++ tail).
  { rewrite Hs at 1. f_equal. rewrite Ht at 1. rewrite Hr0, append_assoc. reflexivity. }
  split; [exact Hl |]. split; [exact Hi |].
  cbn [editLine character start end_].
  rewrite Hl at 2 4. rewrite take_app_length, <- length_append, <- append_assoc, drop_app_length.
  reflexivity.
Qed.

(** With the symbol ["x "] a line that holds nothing but the symbol is left
    alone: [trim] cuts the space the symbol ends with. *)
Lemma removeDoneSymbolEdit_on_bare_symbol :
  removeDoneSymbolEdit "x " (mkTextLine 0 "x ") = []
  /\ removeDoneSymbolEdit "x " (mkTextLine 0 "  x task")
     = [Delete (mkRange (mkPosition 0 2) (mkPosition 0 4))].
Proof. split; reflexivity. Qed.

Lemma replace_between (pre old new post : string) (r : Range) :
  character (start r) = String.length pre ->
  character (end_ r) = (String.length pre + String.length old)%nat ->
  editLine (Replace r new) (pre ++ old ++ post) = pre ++ new ++ post.
Proof.
  intros Hs He. cbn [editLine]. rewrite Hs, He, take_app_length.
  rewrite <- length_append, <- (append_assoc pre old post), drop_app_length. reflexivity.
Qed.

Lemma setCountCurrentValueEdit_text
  (pre tail value : string) (n a needed0 : Z) (endOfRange : Position) :
  exists e,
    setCountCurrentValueEdit
      (mkCountTag (mkRange (mkPosition n (String.length pre)) endOfRange) needed0 a) value
    = [e]
    /\ editLine e (pre ++ "{count:" ++ decimal a ++ tail) = pre ++ "{count:" ++ value ++ tail.
Proof.
  eexists. split; [reflexivity |].
  change (pre ++ "{count:" ++ decimal a ++ tail) with (pre ++ "{count:" ++ (decimal a ++ tail)).
  rewrite <- (append_assoc pre "{count:" (decimal a ++ tail)).
  rewrite <- (append_assoc pre "{count:" (value ++ tail)).
  apply replace_between; cbn [start end_ character range current];
    rewrite length_append; simpl; lia.
Qed.

(** X17.  [setCountCurrentValueEdit] makes one edit, and in a line that
    holds the tag [{count:a/...] at the start of the range of the count, the
    edit rewrites the digits of the current value [a] and nothing else,
    however many digits the old and the new value have. *)
Theorem setCountCurrentValueEdit_rewrites_the_current_value
  (pre tail value : string) (n a needed0 : Z) (endOfRange : Position) :
  exists e,
    setCountCurrentValueEdit
      (mkCountTag (mkRange (mkPosition n (String.length pre)) endOfRange) needed0 a) value
    = [e]
    /\ editLine e (pre ++ "{count:" ++ decimal a ++ tail) = pre ++ "{count:" ++ value ++ tail.
Proof. apply setCountCurrentValueEdit_text. Qed.

Section Local.

Context {zone : JsDate.Zone}.

(** X18.  Counting up and down again gives the line back.  For a counter
    [{count:a/n}] with [a] at least 0 that neither is full nor gets full by
    one step, [incrementCountForTask] makes one edit, which writes [a + 1];
    for the line and the count that result, [decrementCountForTask] makes one
    edit, which writes [a] again. *)
Theorem increment_then_decrement_restores_the_line
  (doneSymbol : string) (completionDateIncludeTime useLocalDateTime : bool)
  (now : Z)
  (pre post priority0 : string) (n a needed0 : Z) (end1 end2 : Position)
  (priorityRange0 dueRange0 overdueRange0 collapseRange0 : option Range) :
  0 <= a -> a <> needed0 -> a + 1 <> needed0 ->
  let lineText := pre ++ "{count:" ++ decimal a ++ "/" ++ decimal needed0 ++ "}" ++ post in
  let task := fun endOfRange v =>
    mkTaskAtLine priority0 priorityRange0 dueRange0 overdueRange0 collapseRange0
      (Some (mkCountTag (mkRange (mkPosition n (String.length pre)) endOfRange) needed0 v)) in
  exists e1 e2,
    incrementCountForTask completionDateIncludeTime useLocalDateTime now
      (mkTextLine n lineText) (task end1 a) = Some [e1]
    /\ editLine e1 lineText
       = pre ++ "{count:" ++ decimal (a + 1) ++ "/" ++ decimal needed0 ++ "}" ++ post
    /\ decrementCountForTask (mkTextLine n (editLine e1 lineText)) (task end2 (a + 1))
       = Some [e2]
    /\ editLine e2 (editLine e1 lineText) = lineText.
Proof.
  intros Ha Hfull Hnext lineText task.
  destruct (setCountCurrentValueEdit_text pre
              ("/" ++ decimal needed0 ++ "}" ++ post) (decimal (a + 1)) n a needed0 end1)
    as (e1 & E1 & T1).
  destruct (setCountCurrentValueEdit_text pre
              ("/" ++ decimal needed0 ++ "}" ++ post) (decimal a) n (a + 1) needed0 end2)
    as (e2 & E2 & T2).
  exists e1, e2.
  unfold incrementCountForTask, decrementCountForTask, task. cbn [count current needed].
  destruct (Z.eqb_spec a needed0); [contradiction |].
  destruct (Z.eqb_spec (a + 1) needed0); [contradiction |].
  destruct (Z.eqb_spec (a + 1) 0); [lia |].
  cbn [negb app]. replace (a + 1 - 1) with a by lia. rewrite E1, E2.
  split; [reflexivity |]. split; [exact T1 |]. split; [reflexivity |].
  unfold lineText. rewrite T1. exact T2.
Qed.

End Local.

Section OnUtc.

#[local] Existing Instance Fixtures.utcZone.

(** The theorem for [{count:9/12}]: the number of digits changes on the
    way. *)
Lemma increment_then_decrement_witness :
  exists e1 e2,
    incrementCountForTask false true 0
      (mkTextLine 4 "run {count:9/12} #sport")
      (mkTaskAtLine "B" None None None None
         (Some (mkCountTag (mkRange (mkPosition 4 4) (mkPosition 4 16)) 12 9)))
    = Some [e1]
    /\ editLine e1 "run {count:9/12} #sport" = "run {count:10/12} #sport"
    /\ decrementCountForTask (mkTextLine 4 (editLine e1 "run {count:9/12} #sport"))
         (mkTaskAtLine "B" None None None None
            (Some (mkCountTag (mkRange (mkPosition 4 4) (mkPosition 4 17)) 12 10)))
       = Some [e2]
    /\ editLine e2 (editLine e1 "run {count:9/12} #sport") = "run {count:9/12} #sport".
Proof.
  apply (increment_then_decrement_restores_the_line "x " false true 0
           "run " " #sport" "B" 4 9 12 (mkPosition 4 16) (mkPosition 4 17) None None None None);
    [lia | discriminate | discriminate].
Defined.

End OnUtc.

Lemma code_ascii_of (n : Z) : 0 <= n < 256 -> code (ascii_of_N (Z.to_N n)) = n.
Proof.
  intros H. unfold code. rewrite N_ascii_embedding; [apply Z2N.id; lia |].
  change 256%N with (Z.to_N 256). apply Z2N.inj_lt; lia.
Qed.

(** X19.  [incrementOrDecrementPriority] on a task whose priority is one of
    the letters A to Z: incrementing A and decrementing Z do nothing; every
    other step makes one edit that writes a letter from A to Z in
    parentheses, the letter before the old one for an increment and the
    letter after it for a decrement.  An edit for a task without a priority
    in its text puts the letter and a space at the start of the line. *)
Theorem priority_stays_a_letter
  (n : Z) (lineText : string) (p : ascii) (type : PriorityChange)
  (priorityRange0 dueRange0 overdueRange0 collapseRange0 : option Range)
  (count0 : option CountTag) :
  65 <= code p <= 90 ->
  let task :=
    mkTaskAtLine (String p EmptyString) priorityRange0 dueRange0 overdueRange0
      collapseRange0 count0 in
  let step := match type with increment => -1 | decrement => 1 end in
  let result := incrementOrDecrementPriority (mkTextLine n lineText) (Some task) type in
  (code p + step < 65 \/ 90 < code p + step -> result = None)
  /\ (65 <= code p + step <= 90 ->
      exists q,
        code q = code p + step
        /\ result
           = Some [match priorityRange0 with
                   | Some r => Replace r ("(" ++ String q EmptyString ++ ")")
                   | None => Insert (mkPosition n 0) ("(" ++ String q EmptyString ++ ") ")
                   end]).
Proof.
  intros Hp task step result.
  assert (HA : (String p EmptyString =? "A")%string = (code p =? 65)).
  { destruct (String.eqb_spec (String p "") "A") as [E | E], (Z.eqb_spec (code p) 65) as [C | C];
      try reflexivity.
    - injection E as ->. contradiction C. reflexivity.
    - contradiction E. f_equal. apply (f_equal Z.to_N) in C. unfold code in C.
      rewrite N2Z.id in C. apply (f_equal ascii_of_N) in C. rewrite ascii_N_embedding in C.
      exact C. }
  assert (HZ : (String p EmptyString =? "Z")%string = (code p =? 90)).
  { destruct (String.eqb_spec (String p "") "Z") as [E | E], (Z.eqb_spec (code p) 90) as [C | C];
      try reflexivity.
    - injection E as ->. contradiction C. reflexivity.
    - contradiction E. f_equal. apply (f_equal Z.to_N) in C. unfold code in C.
      rewrite N2Z.id in C. apply (f_equal ascii_of_N) in C. rewrite ascii_N_embedding in C.
      exact C. }
  unfold result, incrementOrDecrementPriority, task, step. cbn [priority priorityRange lineNumber].
  destruct type; [rewrite HA | rewrite HZ]; cbn [charCodeAt0].
  - destruct (Z.eqb_spec (code p) 65) as [C | C].
    + split; [reflexivity | lia].
    + split; [lia |]. intros _. exists (ascii_of_N (Z.to_N (code p - 1))).
      split; [apply code_ascii_of; lia |]. unfold fromCharCode.
      destruct priorityRange0; reflexivity.
  - destruct (Z.eqb_spec (code p) 90) as [C | C].
    + split; [reflexivity | lia].
    + split; [lia |]. intros _. exists (ascii_of_N (Z.to_N (code p + 1))).
      split; [apply code_ascii_of; lia |]. unfold fromCharCode.
      destruct priorityRange0; reflexivity.
Qed.

(** The theorem at the priority B, incremented. *)
Lemma priority_stays_a_letter_witness :
  (66 + -1 < 65 \/ 90 < 66 + -1 ->
   incrementOrDecrementPriority (mkTextLine 0 "(B) x")
     (Some (mkTaskAtLine "B" (Some (mkRange (mkPosition 0 0) (mkPosition 0 3)))
              None None None None)) increment = None)
  /\ (65 <= 66 + -1 <= 90 ->
      exists q,
        code q = 66 + -1
        /\ incrementOrDecrementPriority (mkTextLine 0 "(B) x")
             (Some (mkTaskAtLine "B" (Some (mkRange (mkPosition 0 0) (mkPosition 0 3)))
                      None None None None)) increment
           = Some [Replace (mkRange (mkPosition 0 0) (mkPosition 0 3))
                     ("(" ++ String q EmptyString ++ ")")]).
Proof.
  apply (priority_stays_a_letter 0 "(B) x" "B" increment
           (Some (mkRange (mkPosition 0 0) (mkPosition 0 3))) None None None None).
  change (65 <= 66 <= 90). lia.
Defined.

End EditFacts.

(** ** Dates written and read back *)

Module IsoFacts.

Import Js TimeUtils StringFacts DocumentActions IsoFormat.

(** Day numbers and civil dates are two readings of one day. *)
Lemma civilFromDays_round_trip (n : Z) :
  let '(y, m, d) := civilFromDays n in
  1 <= m <= 12 /\ 1 <= d <= 31 /\ JsDate.daysFromCivil y m d = n.
Proof.
  unfold civilFromDays, JsDate.daysFromCivil.
  set (z := n + 719468). set (era := z / 146097). set (doe := z - era * 146097).
  assert (Hdoe : 0 <= doe < 146097) by (unfold doe, era; Z.div_mod_to_equations; lia).
  set (yoe := (doe - doe / 1460 + doe / 36524 - doe / 146096) / 365).
  assert (Hy : 0 <= yoe <= 399 /\ 0 <= doe - (365 * yoe + yoe / 4 - yoe / 100) <= 365)
    by (unfold yoe; Z.div_mod_to_equations; lia).
  set (doy := doe - (365 * yoe + yoe / 4 - yoe / 100)) in *.
  set (mp := (5 * doy + 2) / 153).
  assert (Hmp : 0 <= mp <= 11) by (unfold mp; Z.div_mod_to_equations; lia).
  assert (Hd : 1 <= doy - (153 * mp + 2) / 5 + 1 <= 31)
    by (unfold mp; Z.div_mod_to_equations; lia).
  destruct (Z.ltb_spec mp 10).
  - replace (mp + 3 <=? 2) with false by (symmetry; apply Z.leb_gt; lia).
    replace (2 <? mp + 3) with true by (symmetry; apply Z.ltb_lt; lia).
    split; [lia |]. split; [exact Hd |].
    replace (mp + 3 - 3) with mp by lia.
    replace ((yoe + era * 400 + 0) / 400) with era by (Z.div_mod_to_equations; lia).
    replace (yoe + era * 400 + 0 - era * 400) with yoe by lia.
    unfold doy, doe, z. lia.
  - replace (mp - 9 <=? 2) with true by (symmetry; apply Z.leb_le; lia).
    replace (2 <? mp - 9) with false by (symmetry; apply Z.ltb_ge; lia).
    split; [lia |]. split; [exact Hd |].
    replace (mp - 9 + 9) with mp by lia.
    replace ((yoe + era * 400 + 1 - 1) / 400) with era by (Z.div_mod_to_equations; lia).
    replace (yoe + era * 400 + 1 - 1 - era * 400) with yoe by lia.
    unfold doy, doe, z. lia.
Qed.

(** From 0100-01-01 to 9999-12-31 the year has three or four digits. *)
Lemma civilFromDays_year (n : Z) :
  -683003 <= n <= 2932896 ->
  let '(y, m, d) := civilFromDays n in 100 <= y <= 9999.
Proof.
  intros Hn. unfold civilFromDays.
  set (z := n + 719468). set (era := z / 146097). set (doe := z - era * 146097).
  assert (Hdoe : 0 <= doe < 146097) by (unfold doe, era; Z.div_mod_to_equations; lia).
  assert (Hera : 0 <= era <= 24) by (unfold era, z; Z.div_mod_to_equations; lia).
  set (yoe := (doe - doe / 1460 + doe / 36524 - doe / 146096) / 365).
  assert (Hy : 0 <= yoe <= 399 /\ 0 <= doe - (365 * yoe + yoe / 4 - yoe / 100) <= 365)
    by (unfold yoe; Z.div_mod_to_equations; lia).
  set (doy := doe - (365 * yoe + yoe / 4 - yoe / 100)) in *.
  set (mp := (5 * doy + 2) / 153).
  assert (Hmp : 0 <= mp <= 11) by (unfold mp; Z.div_mod_to_equations; lia).
  assert (Hlow : era = 0 -> 99 <= yoe /\ (yoe = 99 -> 10 <= mp)).
  { intros E. assert (36465 <= doe) by (unfold doe, z; lia).
    unfold mp, doy, yoe in *. Z.div_mod_to_equations. lia. }
  assert (Hhigh : era = 24 -> yoe = 399 -> mp < 10).
  { intros E. assert (doe <= 146036) by (unfold doe, z; lia).
    unfold mp, doy, yoe in *. Z.div_mod_to_equations. lia. }
  destruct (Z.ltb_spec mp 10);
    [replace (mp + 3 <=? 2) with false by (symmetry; apply Z.leb_gt; lia)
    | replace (mp - 9 <=? 2) with true by (symmetry; apply Z.leb_le; lia)]; lia.
Qed.

Lemma code_digitChar (n : Z) : code (digitChar n) = 48 + n mod 10.
Proof.
  unfold digitChar. apply EditFacts.code_ascii_of.
  pose proof (Z.mod_pos_bound n 10 eq_refl). lia.
Qed.

Lemma isDigit_digitChar (n : Z) : isDigit (digitChar n) = true.
Proof.
  unfold isDigit. rewrite code_digitChar. pose proof (Z.mod_pos_bound n 10 eq_refl).
  apply andb_true_intro. split; apply Z.leb_le; lia.
Qed.

Lemma Number_pad2 (n : Z) : 0 <= n <= 99 -> Number (pad2 n) = n.
Proof.
  intros H. unfold Number, pad2, digitValue. cbn [list_ascii_of_string fold_left].
  rewrite !code_digitChar. Z.div_mod_to_equations. lia.
Qed.

Lemma Number_pad4 (n : Z) : 0 <= n <= 9999 -> Number (pad4 n) = n.
Proof.
  intros H. unfold Number, pad4, pad2, digitValue. cbn [list_ascii_of_string fold_left].
  rewrite !code_digitChar. Z.div_mod_to_equations. lia.
Qed.

Lemma allDigits_pad2 (n : Z) : allDigits (pad2 n) = true.
Proof. unfold pad2. cbn [allDigits]. rewrite !isDigit_digitChar. reflexivity. Qed.

Lemma allDigits_pad4 (n : Z) : allDigits (pad4 n) = true.
Proof. unfold pad4, pad2. cbn [allDigits]. rewrite !isDigit_digitChar. reflexivity. Qed.

Section Local.

Context {zone : JsDate.Zone}.

(** [new Date(y, m - 1, d)] for the civil date of a day is the local
    midnight of that day. *)
Lemma make_of_civil (n : Z) :
  -683003 <= n <= 2932896 ->
  let '(y, m, d) := civilFromDays n in
  JsDate.make (Number (pad4 y)) (Number (pad2 m) - 1) (Number (pad2 d)) = JsDate.midnight n.
Proof.
  intros Hn. pose proof (civilFromDays_round_trip n) as Hr.
  pose proof (civilFromDays_year n Hn) as Hy.
  destruct (civilFromDays n) as [[y m] d]. destruct Hr as (Hm & Hd & Hr).
  rewrite Number_pad4, !Number_pad2 by lia.
  unfold JsDate.make.
  replace ((0 <=? y) && (y <=? 99)) with false
    by (symmetry; apply andb_false_iff; right; apply Z.leb_gt; lia).
  replace ((m - 1) / 12) with 0 by (Z.div_mod_to_equations; lia).
  replace ((m - 1) mod 12 + 1) with m by (Z.div_mod_to_equations; lia).
  f_equal. rewrite <- Hr. unfold JsDate.daysFromCivil. rewrite Z.add_0_r. lia.
Qed.

Lemma isoDate_parts (n : Z) :
  exists y m d,
    civilFromDays n = (y, m, d)
    /\ isoDate n = pad4 y ++ "-" ++ pad2 m ++ "-" ++ pad2 d.
Proof.
  unfold isoDate. destruct (civilFromDays n) as [[y m] d].
  exists y, m, d. split; reflexivity.
Qed.

(** A date written as YYYY-MM-DD, with or without something behind it that
    is no algorithm, is read by [parseDueDate] as the local midnight of the
    day it was written for. *)
Lemma parseDueDate_isoDate (parse : string -> option Z) (now n : Z) (rest : string) :
  -683003 <= n <= 2932896 ->
  allChars notDot rest = true -> algorithmSuffix rest = None ->
  parseDueDate parse now (isoDate n ++ rest)
  = Ok (mkDueReturn false false (isDueExactDate now (JsDate.midnight n))).
Proof.
  intros Ht Hr Hs. destruct (isoDate_parts n) as (y & m & d & Ec & Ef).
  pose proof (make_of_civil n Ht) as Hmk. rewrite Ec in Hmk.
  rewrite Ef, <- Hmk.
  replace ((pad4 y ++ "-" ++ pad2 m ++ "-" ++ pad2 d) ++ rest)
    with (pad4 y ++ "-" ++ pad2 m ++ "-" ++ pad2 d ++ rest) by reflexivity.
  apply ExpressionFacts.exact_date_parse;
    solve [reflexivity | apply allDigits_pad4 | apply allDigits_pad2 | assumption].
Qed.

Lemma length_isoDate (n : Z) : String.length (isoDate n) = 10%nat.
Proof. destruct (isoDate_parts n) as (y & m & d & _ & ->). reflexivity. Qed.

Lemma getDateInISOFormat_parts (useLocalDateTime : bool) (date : Z) (includeTime : bool) :
  let date' := if useLocalDateTime then JsDate.localTime date else date in
  let msOfDay := date' mod JsDate.msPerDay in
  getDateInISOFormat useLocalDateTime date includeTime
  = isoDate (date' / JsDate.msPerDay)
    ++ (if includeTime then
          "T" ++ pad2 (msOfDay / 3600000) ++ ":" ++ pad2 (msOfDay / 60000 mod 60)
          ++ ":" ++ pad2 (msOfDay / 1000 mod 60)
        else "").
Proof.
  intros date' msOfDay. unfold getDateInISOFormat. fold date'.
  unfold toISOString. fold msOfDay.
  destruct (isoDate_parts (date' / JsDate.msPerDay)) as (y & m & d & _ & ->).
  destruct includeTime; reflexivity.
Qed.

(** X20.  The date [getDateInISOFormat] writes, with or without the time,
    is read by [parseDueDate] as an exact date, in a regular zone and for
    the years 100 to 9999: the date of the local day of the instant with
    [useLocalDateTime], the date of its day in UTC without.  Read as a due
    date, it is [NotDue] exactly on the local days before that date and
    [Due] on the day of that date, so the local date written now is due
    now; when that day lasts at least 24 hours it is [Due] on that day only
    and [Overdue] on every later day. *)
Theorem written_date_is_read_as_its_day
  (dayjsParse : string -> option Z) (useLocalDateTime includeTime : bool)
  (date now : Z) :
  let day := (if useLocalDateTime then JsDate.localTime date else date) / JsDate.msPerDay in
  JsDate.regular zone ->
  -683003 <= day <= 2932896 ->
  exists state,
    parseDueDate dayjsParse now (getDateInISOFormat useLocalDateTime date includeTime)
    = Ok (mkDueReturn false false state)
    /\ (state = NotDue <-> JsDate.dayNumber now < day)
    /\ (JsDate.dayNumber now = day -> state = Due)
    /\ (ONE_DAY_IN_MS <= JsDate.midnight (day + 1) - JsDate.midnight day ->
        (state = Due <-> JsDate.dayNumber now = day)
        /\ (state = Overdue <-> day < JsDate.dayNumber now))
    /\ (useLocalDateTime = true -> date = now -> state = Due).
Proof.
  intros day Hz Hrange.
  exists (isDueExactDate now (JsDate.midnight day)).
  pose proof (ExpressionFacts.isDueExactDate_cases now day Hz) as (Hn & Hd & _ & Hfull).
  split.
  - rewrite getDateInISOFormat_parts. fold day.
    apply parseDueDate_isoDate; [exact Hrange | |]; destruct includeTime;
      try reflexivity.
    repeat first
      [ rewrite allChars_app
      | rewrite (IntervalFacts.digits_notDot _ (allDigits_pad2 _))
      | progress cbn [append allChars] ].
    reflexivity.
  - split; [exact Hn |]. split; [exact Hd |]. split; [exact Hfull |].
    intros Hu Hnow. apply Hd. unfold day. rewrite Hu, Hnow. reflexivity.
Qed.

End Local.

Section InNewYork.

#[local] Existing Instance Fixtures.newYork2018.

(** The theorem in New York on 11 March 2018 at 9:11:17. *)
Lemma written_date_is_read_as_its_day_witness :
  exists state,
    parseDueDate Fixtures.dayjsDateOnly (JsDate.make 2018 2 11 + 29477000)
      (getDateInISOFormat true (JsDate.make 2018 2 11 + 29477000) true)
    = Ok (mkDueReturn false false state)
    /\ (state = NotDue <-> 17601 < 17601)
    /\ (17601 = 17601 -> state = Due)
    /\ (ONE_DAY_IN_MS <= 82800000 ->
        (state = Due <-> 17601 = 17601) /\ (state = Overdue <-> 17601 < 17601))
    /\ (true = true ->
        JsDate.make 2018 2 11 + 29477000 = JsDate.make 2018 2 11 + 29477000 -> state = Due).
Proof.
  refine (written_date_is_read_as_its_day Fixtures.dayjsDateOnly true true
            (JsDate.make 2018 2 11 + 29477000) (JsDate.make 2018 2 11 + 29477000)
            ZoneFacts.newYork2018_regular _).
  vm_compute. split; discriminate.
Defined.

(** What is written there, and what is written without [useLocalDateTime]
    at 21:00 of 1 January 2018: the date of UTC, which is the next day and
    not due yet. *)
Lemma utc_date_can_be_tomorrow :
  getDateInISOFormat true (JsDate.make 2018 2 11 + 29477000) true = "2018-03-11T09:11:17"
  /\ getDateInISOFormat true (JsDate.make 2018 0 1 + 75600000) false = "2018-01-01"
  /\ getDateInISOFormat false (JsDate.make 2018 0 1 + 75600000) false = "2018-01-02"
  /\ parseDueDate Fixtures.dayjsDateOnly (JsDate.make 2018 0 1 + 75600000) "2018-01-02"
     = Ok (mkDueReturn false false NotDue).
Proof. repeat split. Qed.

End InNewYork.

End IsoFacts.

(** ** The completion date of a task *)

Module CompletionDateFacts.

Import Js StringFacts DocumentActions IsoFormat VsCode DocumentEdits EditFacts IsoFacts.

Definition rejectsSpace (p : ascii -> bool) : Prop := p " "%char = false.

(** Behind the first one, no class of the pattern takes a space: a match
    that starts in front of an appended [" ..."] cannot run into it. *)
Lemma matchClasses_app (classes : list (ascii -> bool)) (s r : string) :
  Forall rejectsSpace classes ->
  matchClasses classes (s ++ String " " r)
  = match matchClasses classes s with
    | Some rest => Some (rest ++ String " " r)
    | None => None
    end.
Proof.
  intros H. revert s. induction H as [| p classes Hp _ IH]; intros s; [reflexivity |].
  destruct s as [| c s]; cbn [append matchClasses].
  - rewrite Hp. reflexivity.
  - destruct (p c); [apply IH | reflexivity].
Qed.

Lemma closingBrace_app (s r : string) :
  closingBrace s = None -> closingBrace (s ++ String " " r) = None.
Proof.
  destruct s as [| c s]; [reflexivity |]. cbn [append closingBrace].
  destruct (Ascii.eqb c "}"); [| reflexivity].
  destruct s as [| c' s]; [discriminate |]. destruct (isSpace c'); discriminate.
Qed.

Lemma date_classes_reject_space : Forall rejectsSpace (tl completionDateClasses).
Proof. repeat constructor. Qed.

Lemma time_classes_reject_space : Forall rejectsSpace completionTimeClasses.
Proof. repeat constructor. Qed.

Lemma completionDateAt_app (c : ascii) (s r : string) :
  completionDateAt (String c s) = None ->
  completionDateAt (String c s ++ String " " r) = None.
Proof.
  unfold completionDateAt. cbn [append].
  change (matchClasses completionDateClasses (String c s))
    with (if isSpace c then matchClasses (tl completionDateClasses) s else None).
  change (matchClasses completionDateClasses (String c (s ++ String " " r)))
    with (if isSpace c then matchClasses (tl completionDateClasses) (s ++ String " " r)
          else None).
  destruct (isSpace c); [| reflexivity].
  rewrite (matchClasses_app _ s r date_classes_reject_space).
  destruct (matchClasses (tl completionDateClasses) s) as [afterDate |]; [| reflexivity].
  rewrite (matchClasses_app _ afterDate r time_classes_reject_space).
  destruct (matchClasses completionTimeClasses afterDate) as [afterTime |].
  - destruct (closingBrace afterTime) eqn:E; [discriminate |].
    rewrite (closingBrace_app _ r E). reflexivity.
  - destruct (closingBrace afterDate) eqn:E; [discriminate |].
    rewrite (closingBrace_app _ r E). reflexivity.
Qed.

(** A text without a completion date, with [" ..."] appended that is one as
    a whole: the pattern finds the appended part. *)
Lemma completionDateRegex_exec_app (lineText r : string) (index : nat) :
  execIndexFrom completionDateAt lineText index = None ->
  completionDateAt (String " " r) = Some (String.length (String " " r)) ->
  execIndexFrom completionDateAt (lineText ++ String " " r) index
  = Some ((index + String.length lineText)%nat, String.length (String " " r)).
Proof.
  intros Hno Hins. revert index Hno.
  induction lineText as [| c s IH]; intros index Hno.
  - cbn [append]. unfold execIndexFrom. rewrite Hins. f_equal. f_equal. cbn. lia.
  - cbn [execIndexFrom] in Hno.
    destruct (completionDateAt (String c s)) eqn:E; [discriminate |].
    change (execIndexFrom completionDateAt (String c s ++ String " " r) index)
      with (match completionDateAt (String c s ++ String " " r) with
            | Some m => Some (index, m)
            | None => execIndexFrom completionDateAt (s ++ String " " r) (S index)
            end).
    rewrite (completionDateAt_app c s r E), (IH (S index) Hno).
    f_equal. f_equal. cbn [String.length]. lia.
Qed.

Section Local.

Context {zone : JsDate.Zone}.

(** What [insertCompletionDateEdit] writes is a completion date as a whole. *)
Lemma completionDateAt_written
  (useLocalDateTime includeTime : bool) (date : Z) :
  let written :=
    " {cm:" ++ getDateInISOFormat useLocalDateTime date includeTime ++ "}" in
  completionDateAt written = Some (String.length written).
Proof.
  intros written. unfold written. rewrite getDateInISOFormat_parts.
  destruct (isoDate_parts
              ((if useLocalDateTime then JsDate.localTime date else date) / JsDate.msPerDay))
    as (y & m & d & _ & ->).
  unfold completionDateAt, completionDateClasses, completionTimeClasses, pad4, pad2.
  destruct includeTime; cbn [append matchClasses];
    repeat first [rewrite isDigit_digitChar | progress cbn]; reflexivity.
Qed.

(** X21.  Completing a task and then taking the completion back restores
    the line, when the line carried no completion date before: the
    [{cm:...}] that [insertCompletionDateEdit] appends, with or without the
    time, is what [removeCompletionDateWorkspaceEdit] finds and deletes, for
    the years 100 to 9999. *)
Theorem completion_date_insert_then_remove
  (completionDateIncludeTime useLocalDateTime : bool) (now : Z)
  (l : TextLine) :
  let date' := if useLocalDateTime then JsDate.localTime now else now in
  -683003 <= date' / JsDate.msPerDay <= 2932896 ->
  completionDateRegex_exec (text l) = None ->
  exists ins del,
    insertCompletionDateEdit completionDateIncludeTime useLocalDateTime now l
    = [ins]
    /\ removeCompletionDateWorkspaceEdit
         (mkTextLine (lineNumber l) (editLine ins (text l))) = [del]
    /\ editLine del (editLine ins (text l)) = text l.
Proof.
  intros date' _ Hno.
  pose proof (completionDateAt_written useLocalDateTime completionDateIncludeTime
                now) as Hw.
  cbn zeta in Hw. cbn [append] in Hw.
  set (r := "{cm:" ++ getDateInISOFormat useLocalDateTime now
                        completionDateIncludeTime ++ "}") in *.
  assert (Hline : editLine (Insert (mkPosition (lineNumber l) (endCharacter l)) (String " " r))
                    (text l) = text l ++ String " " r).
  { unfold editLine, endCharacter. cbn [character].
    rewrite take_length, drop_length, append_empty_r. reflexivity. }
  eexists. eexists. split; [reflexivity |].
  change (" {cm:" ++ getDateInISOFormat useLocalDateTime now
                       completionDateIncludeTime ++ "}") with (String " " r).
  rewrite Hline. unfold removeCompletionDateWorkspaceEdit, completionDateRegex_exec.
  cbn [text lineNumber].
  rewrite (completionDateRegex_exec_app (text l) r 0 Hno Hw).
  split; [reflexivity |].
  unfold editLine. cbn [character start end_ Nat.add].
  rewrite take_app_length.
  rewrite <- length_append, drop_length. apply append_empty_r.
Qed.

End Local.

Section OnUtc.

#[local] Existing Instance Fixtures.utcZone.

(** The theorem on the line ["buy milk"], completed on 30 April 2020 at
    09:11:17 UTC. *)
Lemma completion_date_insert_then_remove_witness :
  exists ins del,
    insertCompletionDateEdit true true (JsDate.make 2020 3 30 + 33077000)
      (mkTextLine 4 "buy milk") = [ins]
    /\ removeCompletionDateWorkspaceEdit (mkTextLine 4 (editLine ins "buy milk")) = [del]
    /\ editLine del (editLine ins "buy milk") = "buy milk".
Proof.
  apply (completion_date_insert_then_remove true true
           (JsDate.make 2020 3 30 + 33077000) (mkTextLine 4 "buy milk")).
  - vm_compute. split; discriminate.
  - reflexivity.
Defined.

End OnUtc.

(** On a line that carries a completion date already, the first one is
    deleted, not the one just written. *)
Lemma removeCompletionDate_takes_the_first :
  removeCompletionDateWorkspaceEdit
    (mkTextLine 0 "a {cm:2020-04-29} b {cm:2020-04-30}")
  = [Delete (mkRange (mkPosition 0 1) (mkPosition 0 18))].
Proof. reflexivity. Qed.

End CompletionDateFacts.
